(** * Data profiling, validation and capsule consolidation

    A shallow embedding of the two algorithmic cores of the repository:

    - [capsule_index_job.py]: [validate_schema], [merge_capsules] and the
      collection loop of [main];
    - [scripts/data_intake_v0.7.0.py]: [detect_column_types],
      [validate_numeric_ranges], [calculate_statistics] and [validate_data];
      around them, [get_default_config], [load_config], the row loop of
      [read_csv_data] and the grouping of columns and messages done by
      [create_comprehensive_capsule].

    Conventions of the embedding.

    - A Python [dict] with string keys is a [gmap string _]; the order of its
      keys is not represented (no statement below depends on it), except for
      [value_counts], whose first-seen order decides ties and which is an
      association list.
    - A value that [float(...)] returns, and every value computed from such
      values, is a [pyfloat]: a finite double (the rational it denotes), an
      infinity or NaN.  Their arithmetic rounds: the result of an operation
      on finite doubles is the exact result passed through [nearest], the
      rounding of the float unit, which is a parameter, as are the text
      parser [float(...)] and the power [x ** y]; they are gathered in
      [pybuiltins].  What the proofs use of them is stated in
      [rounding_ok], [square_ok] and [sort_ok].
    - The numbers computed from counters alone (ratios of counts, the
      quality score, the thresholds of the configuration) are exact
      rationals of [Q].
    - A Python exception is [None] in the [option] monad, in
      [capsule_index_job.py] and where the intake script catches it.  The
      intake script does not catch [OverflowError] ([int(x)] of an infinity,
      [x ** y] out of range) nor [ZeroDivisionError] ([x / 0.0]): the run
      then ends without a profile.  Those ends are not represented; the
      functions of the model are total and describe the values the script
      computes when it gets to the end.
    - A Python [set] is the list of its elements in iteration order; that
      order is chosen by the interpreter (string hashing is seeded per
      process), so it is read from an explicit environment [pyenv].
    - Text is a [string] holding the UTF-8 bytes of the text: a character
      is a byte that starts one with the bytes that continue it, and
      strings are compared byte by byte (for UTF-8 text, the order of code
      points).  [lower] changes the ASCII letters only.  [str.lower()]
      turns two more characters into text with an ASCII letter (U+0130 into
      [i] followed by a combining dot, U+212A into [k]), and neither can be
      part of a word the script looks for.
    - Text written with [print] is not represented. *)

From Stdlib Require Import QArith Qround Lqa Lia ZArith String Ascii.
From Stdlib Require OrderedTypeEx.
From stdpp Require Import base option list gmap strings sorting.

Local Open Scope string_scope.

(** ** The Python runtime *)

Module PyRuntime.

(** The part of the interpreter state that a [set] of strings depends on:
    [set_iter l] is the order in which a set holding exactly the distinct
    strings [l] is iterated. *)
Record pyenv := PyEnv { set_iter : list string -> list string }.

(** Whatever the hash seed, iterating a set yields each element once. *)
Definition pyenv_ok (e : pyenv) : Prop :=
  forall l : list string, NoDup l -> set_iter e l ≡ₚ l.

(** [set(l)] *)
Definition pyset (e : pyenv) (l : list string) : list string :=
  set_iter e (remove_dups l).

(** [set(a) | set(b)] *)
Definition pyset_union (e : pyenv) (a b : list string) : list string :=
  pyset e (a ++ b).

(** A [float]: an IEEE 754 double.  A finite double is given by the rational
    it denotes. *)
Inductive pyfloat :=
| Finite (q : Q)
| PosInf
| NegInf
| NaN.

(** What the interpreter and the float unit decide.
    - [float s] is [float(s)], [None] when it raises [ValueError]; besides
      numerals it accepts texts such as ['nan'] and ['inf'].
    - [nearest q] is the double that the exact result [q] of an operation on
      finite doubles is rounded to: an infinity when [q] is out of range.
    - [pow x y] is [x ** y] (which raises [OverflowError] when the result
      is out of range).
    - [sort_nan l] is [sorted(l)] for a list that holds a NaN: no order
      relation is respected then, and the arrangement returned depends on
      how the sort merges runs. *)
Record pybuiltins := PyBuiltins {
  float : string -> option pyfloat;
  nearest : Q -> pyfloat;
  pow : pyfloat -> Q -> pyfloat;
  sort_nan : list pyfloat -> list pyfloat
}.

(** A byte [10xxxxxx] continues the character begun before it. *)
Definition is_continuation (a : ascii) : bool :=
  let n := nat_of_ascii a in
  ((128 <=? n) && (n <=? 191))%nat.

(** The one-character strings of a string: what iterating a [str] yields. *)
Fixpoint chars (s : string) : list string :=
  match s with
  | EmptyString => []
  | String a r =>
      let first := String a EmptyString in
      match r with
      | EmptyString => [first]
      | String b _ =>
          if is_continuation b
          then match chars r with
               | c :: cs => String a c :: cs
               | [] => [first]
               end
          else first :: chars r
      end
  end.

(** [len(s)] *)
Definition len (s : string) : nat := length (chars s).

(** [a < b] on lists of strings (lexicographic). *)
Fixpoint list_ltb (a b : list string) : bool :=
  match a, b with
  | [], [] => false
  | [], _ :: _ => true
  | _ :: _, [] => false
  | x :: a', y :: b' =>
      if String.eqb x y then list_ltb a' b' else String.ltb x y
  end.

(** A character given by its UTF-8 bytes. *)
Definition utf8 (l : list nat) : string :=
  foldr (fun n s => String (ascii_of_nat n) s) EmptyString l.

(** The characters [c] with [c.isspace()]: U+0009 to U+000D, U+001C to
    U+0020, U+0085, U+00A0, U+1680, U+2000 to U+200A, U+2028, U+2029,
    U+202F, U+205F and U+3000. *)
Definition spaces : list string :=
  map utf8
    [[9]; [10]; [11]; [12]; [13]; [28]; [29]; [30]; [31]; [32];
     [194; 133]; [194; 160]; [225; 154; 128];
     [226; 128; 128]; [226; 128; 129]; [226; 128; 130]; [226; 128; 131];
     [226; 128; 132]; [226; 128; 133]; [226; 128; 134]; [226; 128; 135];
     [226; 128; 136]; [226; 128; 137]; [226; 128; 138];
     [226; 128; 168]; [226; 128; 169]; [226; 128; 175];
     [226; 129; 159]; [227; 128; 128]].

Definition is_space (c : string) : bool := bool_decide (c ∈ spaces).

(** [str.strip()] *)
Fixpoint lstrip (l : list string) : list string :=
  match l with
  | [] => []
  | c :: l' => if is_space c then lstrip l' else l
  end.

Definition strip (s : string) : string :=
  String.concat "" (reverse (lstrip (reverse (lstrip (chars s))))).

(** [str.lower()] *)
Definition lower_ascii (a : ascii) : ascii :=
  let n := nat_of_ascii a in
  if ((65 <=? n) && (n <=? 90))%nat then ascii_of_nat (n + 32) else a.

Fixpoint lower (s : string) : string :=
  match s with
  | EmptyString => EmptyString
  | String a r => String (lower_ascii a) (lower r)
  end.

(** [sub in s] *)
Fixpoint contains (sub s : string) : bool :=
  String.prefix sub s ||
  match s with
  | EmptyString => false
  | String _ r => contains sub r
  end.

(** [sorted(l)] for a strict comparison [lt]: a stable sort.  An element is
    put in front of the first element that is not smaller than it, and the
    elements are inserted from the right, so equal elements keep their
    order. *)
Section Sorted.
Context {A : Type} (lt : A -> A -> bool).

Fixpoint insert_sorted (x : A) (l : list A) : list A :=
  match l with
  | [] => [x]
  | y :: l' => if lt y x then y :: insert_sorted x l' else x :: l
  end.

Definition sorted (l : list A) : list A := foldr insert_sorted [] l.
End Sorted.

(** [a < b] and [a > b] on exact numbers. *)
Definition Qltb (a b : Q) : bool := negb (Qle_bool b a).
Definition Qgtb (a b : Q) : bool := Qltb b a.

(** [int(x)]: truncation toward zero. *)
Definition int_of (x : Q) : Z := Z.quot (Qnum x) (Zpos (Qden x)).

(** An [int] used as a number. *)
Definition of_nat (n : nat) : Q := inject_Z (Z.of_nat n).

(** *** Float arithmetic *)

Definition is_nan (a : pyfloat) : bool :=
  match a with NaN => true | _ => false end.

Definition is_finite (a : pyfloat) : bool :=
  match a with Finite _ => true | _ => false end.

(** [a < b] and [a <= b]: false as soon as one side is NaN. *)
Definition flt (a b : pyfloat) : bool :=
  match a, b with
  | NaN, _ | _, NaN => false
  | Finite x, Finite y => Qltb x y
  | _, NegInf => false
  | NegInf, _ => true
  | PosInf, _ => false
  | _, PosInf => true
  end.

Definition fle (a b : pyfloat) : bool :=
  match a, b with
  | NaN, _ | _, NaN => false
  | Finite x, Finite y => Qle_bool x y
  | NegInf, _ => true
  | _, NegInf => false
  | _, PosInf => true
  | PosInf, _ => false
  end.

Definition float_le (a b : pyfloat) : Prop := fle a b = true.

(** [-a] *)
Definition fneg (a : pyfloat) : pyfloat :=
  match a with
  | Finite x => Finite (- x)
  | PosInf => NegInf
  | NegInf => PosInf
  | NaN => NaN
  end.

(** [a + b] and [a - b] *)
Definition fadd (B : pybuiltins) (a b : pyfloat) : pyfloat :=
  match a, b with
  | NaN, _ | _, NaN => NaN
  | Finite x, Finite y => nearest B (x + y)
  | PosInf, NegInf | NegInf, PosInf => NaN
  | PosInf, _ | _, PosInf => PosInf
  | NegInf, _ | _, NegInf => NegInf
  end.

Definition fsub (B : pybuiltins) (a b : pyfloat) : pyfloat := fadd B a (fneg b).

(** The infinity of the sign of [s * t], for [s] and [t] not zero. *)
Definition inf_of_sign (negative : bool) : pyfloat :=
  if negative then NegInf else PosInf.

Definition is_negative (a : pyfloat) : bool := flt a (Finite 0).

Definition is_zero (a : pyfloat) : bool :=
  match a with Finite x => Qeq_bool x 0 | _ => false end.

(** [a * b] *)
Definition fmul (B : pybuiltins) (a b : pyfloat) : pyfloat :=
  match a, b with
  | NaN, _ | _, NaN => NaN
  | Finite x, Finite y => nearest B (x * y)
  | _, _ =>
      if is_zero a || is_zero b then NaN
      else inf_of_sign (xorb (is_negative a) (is_negative b))
  end.

(** [a / b] for [b] not zero (a zero divisor raises [ZeroDivisionError]). *)
Definition fdiv (B : pybuiltins) (a b : pyfloat) : pyfloat :=
  match a, b with
  | NaN, _ | _, NaN => NaN
  | Finite x, Finite y => if Qeq_bool y 0 then NaN else nearest B (x / y)
  | Finite _, _ => Finite 0
  | _, Finite _ =>
      if is_zero b then NaN
      else inf_of_sign (xorb (is_negative a) (is_negative b))
  | _, _ => NaN
  end.

(** [sum(l)]: the elements are added to [0] from left to right, each
    addition rounded.  (Interpreters from 3.12 on also carry a correction
    term for the rounding errors; like this sum, theirs is not negative
    when no term is, and not NaN when the terms are finite, which is all
    that is used of it.) *)
Definition fsum (B : pybuiltins) (l : list pyfloat) : pyfloat :=
  foldl (fadd B) (Finite 0) l.

(** [min(l)] and [max(l)] of a list that starts with [x]: the running
    value is replaced by an element that is smaller (larger) than it. *)
Definition py_min (x : pyfloat) (l : list pyfloat) : pyfloat :=
  foldl (fun m v => if flt v m then v else m) x l.
Definition py_max (x : pyfloat) (l : list pyfloat) : pyfloat :=
  foldl (fun m v => if flt m v then v else m) x l.

(** [sorted(l)] on floats.  Without a NaN the comparison is a total
    preorder and every stable sort returns the same list. *)
Definition sorted_floats (B : pybuiltins) (l : list pyfloat) : list pyfloat :=
  if existsb is_nan l then sort_nan B l else sorted flt l.

(** What is assumed of the float unit: rounding leaves zero alone and
    preserves the order of exact results. *)
Definition rounding_ok (B : pybuiltins) : Prop :=
  nearest B 0 = Finite 0 /\
  forall x y : Q, (x <= y)%Q -> float_le (nearest B x) (nearest B y).

(** A square is not negative: [x ** 2] for [x] not NaN. *)
Definition square_ok (B : pybuiltins) : Prop :=
  forall x : pyfloat, is_nan x = false -> float_le (Finite 0) (pow B x 2).

(** Sorting rearranges, whatever the comparisons answer. *)
Definition sort_ok (B : pybuiltins) : Prop :=
  forall l : list pyfloat, sort_nan B l ≡ₚ l.

End PyRuntime.

(** ** capsule_index_job.py *)

Module CapsuleIndexJob.
Import PyRuntime.

(** The values a capsule field holds: a string, or a list of strings (the
    [tags]). *)
Inductive value :=
| VStr (s : string)
| VList (l : list string).

#[global] Instance value_eq_dec : EqDecision value.
Proof. solve_decision. Defined.

(** A capsule record is a [dict]. *)
Notation capsule := (gmap string value).

(** An entry of [all_capsules]: [(capsule, repo, path)]. *)
Notation entry := (capsule * string * string)%type.

Definition required : list string :=
  ["capsule_id"; "timestamp_utc"; "status"; "hash"].

(** [all(field in capsule for field in required)] *)
Definition validate_schema (c : capsule) : bool :=
  forallb (fun field => bool_decide (is_Some (c !! field))) required.

(** [{**capsule, "source_repo": repo, "manifest_path": path}] *)
Definition stamp (c : capsule) (repo path : string) : capsule :=
  <["manifest_path" := VStr path]> (<["source_repo" := VStr repo]> c).

(** A dictionary key must be hashable: a list raises [TypeError]. *)
Definition hashable (v : value) : option string :=
  match v with
  | VStr s => Some s
  | VList _ => None
  end.

(** [a < b]: defined between two strings and between two lists; a string
    against a list raises [TypeError]. *)
Definition py_lt (a b : value) : option bool :=
  match a, b with
  | VStr x, VStr y => Some (String.ltb x y)
  | VList x, VList y => Some (list_ltb x y)
  | _, _ => None
  end.

(** What [set(v)] iterates over. *)
Definition iter_value (v : value) : list string :=
  match v with
  | VStr s => chars s
  | VList l => l
  end.

(** [c.get("tags", [])] *)
Definition get_tags (c : capsule) : list string :=
  match c !! "tags" with
  | Some v => iter_value v
  | None => []
  end.

(** The body of the loop of [merge_capsules]. *)
Definition merge_step (e : pyenv) (master_index : gmap string capsule)
    (x : entry) : option (gmap string capsule) :=
  let '(c, repo, path) := x in
  idv ← c !! "capsule_id";
  cid ← hashable idv;
  match master_index !! cid with
  | None => Some (<[cid := stamp c repo path]> master_index)
  | Some existing =>
      st ← c !! "status";
      green_wins ←
        (if decide (st = VStr "green")
         then est ← existing !! "status";
              Some (bool_decide (est ≠ VStr "green"))
         else Some false);
      if green_wins : bool
      then Some (<[cid := stamp c repo path]> master_index)
      else
        ts ← c !! "timestamp_utc";
        ets ← existing !! "timestamp_utc";
        older ← py_lt ts ets;
        if older : bool
        then Some (<[cid := stamp c repo path]> master_index)
        else
          let tags := pyset_union e (get_tags existing) (get_tags c) in
          Some (<[cid := <["tags" := VList tags]> existing]> master_index)
  end.

Fixpoint merge_loop (e : pyenv) (master_index : gmap string capsule)
    (all_capsules : list entry) : option (gmap string capsule) :=
  match all_capsules with
  | [] => Some master_index
  | x :: rest =>
      master_index' ← merge_step e master_index x;
      merge_loop e master_index' rest
  end.

Definition merge_capsules (e : pyenv) (all_capsules : list entry)
  : option (gmap string capsule) :=
  merge_loop e ∅ all_capsules.

(** A loaded manifest: the directory it was found under, its path, and its
    ["capsules"] list. *)
Notation manifest := (string * string * list capsule)%type.

(** The collection loop of [main]: every capsule of every manifest that
    passes [validate_schema], in discovery order. *)
Definition collect (manifests : list manifest) : list entry :=
  flat_map
    (fun m : manifest =>
       let '(repo, path, capsules) := m in
       map (fun c => (c, repo, path)) (List.filter validate_schema capsules))
    manifests.

(** [main], from the loaded manifests to the master index it saves. *)
Definition main (e : pyenv) (manifests : list manifest)
  : option (gmap string capsule) :=
  merge_capsules e (collect manifests).

End CapsuleIndexJob.

(** ** scripts/data_intake_v0.7.0.py *)

Module DataIntake.
Import PyRuntime.

(** A row of [csv.DictReader]: field name to text. *)
Notation row := (gmap string string).

(** [row.get(field, '')] *)
Definition get (r : row) (field : string) : string := default "" (r !! field).

(** Truth value of a text: the empty text is false. *)
Definition truthy (v : string) : bool := negb (String.eqb v "").

Inductive coltype :=
| numeric | integer | boolean | datetime
| categorical | categorical_high | mixed | empty
| unknown.

#[global] Instance coltype_eq_dec : EqDecision coltype.
Proof. solve_decision. Defined.

(** An entry of [column_types]. *)
Record column_type := ColumnType {
  ct_type : coltype;
  ct_confidence : Q;
  ct_sample_count : nat
}.

(** *** detect_column_types *)

(** [[row.get(field, '') for row in data[:sample_size] if row.get(field)]]
    with [sample_size = min(100, len(data))]. *)
Definition sample_values (data : list row) (field : string) : list string :=
  let sample_size := Nat.min 100 (length data) in
  List.filter truthy (map (fun r => get r field) (take sample_size data)).

Definition boolean_tokens : list string :=
  ["true"; "false"; "yes"; "no"; "0"; "1"; "t"; "f"; "y"; "n"].

Definition is_boolean (val : string) : bool :=
  bool_decide (lower (strip val) ∈ boolean_tokens).

Definition is_numeric (B : pybuiltins) (val : string) : bool :=
  match float B val with Some _ => true | None => false end.

(** [num_val == int(num_val)] inside the handler: [int] of a NaN raises
    [ValueError], which is caught after the value was counted as numeric.
    ([int] of an infinity raises [OverflowError], which is not caught.) *)
Definition is_integer (B : pybuiltins) (val : string) : bool :=
  match float B val with
  | Some (Finite num_val) => Qeq_bool num_val (inject_Z (int_of num_val))
  | _ => false
  end.

Definition is_date (val : string) : bool :=
  (8 <=? len val)%nat &&
  existsb (fun sep => contains sep val) ["-"; "/"; "."].

(** [k / n] for two counters. *)
Definition ratio (k n : nat) : Q := (of_nat k / of_nat n)%Q.

(** One iteration of the loop over [fieldnames]: the entry stored in
    [column_types] and the warnings appended. *)
Definition detect_field (B : pybuiltins) (e : pyenv) (data : list row)
    (field : string) : column_type * list string :=
  let sample := sample_values data field in
  match sample with
  | [] => (ColumnType empty 1 0, ["Column '" ++ field ++ "' is empty"])
  | _ :: _ =>
      let numeric_count := length (List.filter (is_numeric B) sample) in
      let integer_count := length (List.filter (is_integer B) sample) in
      let date_count := length (List.filter is_date sample) in
      let boolean_count := length (List.filter is_boolean sample) in
      let n := length sample in
      let numeric_ratio := ratio numeric_count n in
      let integer_ratio := ratio integer_count n in
      let date_ratio := ratio date_count n in
      let boolean_ratio := ratio boolean_count n in
      if Qgtb boolean_ratio (9 # 10) then
        (ColumnType boolean boolean_ratio n, [])
      else if Qgtb date_ratio (8 # 10) then
        (ColumnType datetime date_ratio n, [])
      else if Qgtb integer_ratio (9 # 10) then
        (ColumnType integer integer_ratio n, [])
      else if Qgtb numeric_ratio (8 # 10) then
        (ColumnType numeric numeric_ratio n, [])
      else if Qgtb numeric_ratio (3 # 10) then
        (ColumnType mixed (5 # 10) n,
         ["Column '" ++ field ++ "' has mixed types"])
      else
        let unique_count := length (pyset e sample) in
        let cardinality := ratio unique_count n in
        if Qgtb cardinality (9 # 10) then
          (ColumnType categorical_high (1 - numeric_ratio) n, [])
        else
          (ColumnType categorical (1 - numeric_ratio) n, [])
  end.

(** The loop over [fieldnames], from the state [(column_types, warnings)]. *)
Definition detect_loop (B : pybuiltins) (e : pyenv) (data : list row)
    (fieldnames : list string)
  : gmap string column_type * list string :=
  foldl
    (fun acc field =>
       (<[field := (detect_field B e data field).1]> acc.1,
        (acc.2 ++ (detect_field B e data field).2)%list))
    (∅, []) fieldnames.

Definition detect_column_types (B : pybuiltins) (e : pyenv)
    (data : list row) (fieldnames : list string)
  : gmap string column_type * list string :=
  match data with
  | [] => (∅, [])
  | _ :: _ => detect_loop B e data fieldnames
  end.

(** *** The threshold configuration *)

(** [config] as the functions read it: the ['thresholds'] entry, a
    dictionary of groups of named numbers. *)
Record config := Config {
  thresholds : option (gmap string (gmap string Q))
}.

(** [config.get('thresholds', {}).get(group, {}).get(key, dflt)] *)
Definition threshold (cfg : config) (group key : string) (dflt : Q) : Q :=
  let groups := default ∅ (thresholds cfg) in
  let params := default ∅ (groups !! group) in
  default dflt (params !! key).

(** *** validate_numeric_ranges *)

(** The entries of [validation_issues]; each constructor is one of the
    formatted texts, with the values it prints. *)
Inductive issue :=
| InvalidNumeric (field : string) (invalid_count : nat)
| FrequencyOutOfRange (field : string) (k : nat) (min_freq max_freq : Q)
| NegativeEnergy (field : string) (negative_count : nat)
| LatticeOutOfRange (field : string) (k : nat) (min_lc max_lc : Q).

(** The type of a column as the later stages read it:
    [column_types.get(field, {}).get('type')]. *)
Definition lookup_type (column_types : gmap string column_type)
    (field : string) : option coltype :=
  ct_type <$> column_types !! field.

Definition is_numeric_type (t : option coltype) : bool :=
  match t with
  | Some numeric | Some integer => true
  | _ => false
  end.

(** The floats of a column: [float(v)] for every non-empty [v] on which it
    does not raise. *)
Definition parse_values (B : pybuiltins) (values : list string) : list pyfloat :=
  omap (float B) (List.filter truthy values).

(** [[v for v in values if v < lo or v > hi]] *)
Definition out_of_range (lo hi : Q) (values : list pyfloat) : list pyfloat :=
  List.filter (fun v => flt v (Finite lo) || flt (Finite hi) v) values.

Definition range_issues (B : pybuiltins) (data : list row) (cfg : config)
    (field : string) : list issue :=
  let present := List.filter truthy (map (fun r => get r field) data) in
  let values := omap (float B) present in
  let invalid_count := length (List.filter (fun v => negb (is_numeric B v)) present) in
  (if (0 <? invalid_count)%nat then [InvalidNumeric field invalid_count] else [])
  ++
  match values with
  | [] => []
  | _ :: _ =>
      let field_lower := lower field in
      (if contains "frequency" field_lower || contains "freq" field_lower then
         let min_freq := threshold cfg "radio_frequency" "min_frequency_hz" 1000000 in
         let max_freq := threshold cfg "radio_frequency" "max_frequency_hz" 1000000000000 in
         let bad := out_of_range min_freq max_freq values in
         match bad with
         | [] => []
         | _ => [FrequencyOutOfRange field (length bad) min_freq max_freq]
         end
       else [])
      ++
      (if contains "energy" field_lower then
         let negative_count := length (List.filter (fun v => flt v (Finite 0)) values) in
         if (0 <? negative_count)%nat then [NegativeEnergy field negative_count] else []
       else [])
      ++
      (if contains "lattice" field_lower || contains "constant" field_lower then
         let min_lc := threshold cfg "lattice_parameters" "min_lattice_constant" (1 # 10) in
         let max_lc := threshold cfg "lattice_parameters" "max_lattice_constant" 100 in
         let bad := out_of_range min_lc max_lc values in
         match bad with
         | [] => []
         | _ => [LatticeOutOfRange field (length bad) min_lc max_lc]
         end
       else [])
  end%list.

Definition validate_numeric_ranges (B : pybuiltins) (data : list row)
    (fieldnames : list string) (column_types : gmap string column_type)
    (cfg : config) : list issue :=
  flat_map
    (fun field =>
       if is_numeric_type (lookup_type column_types field)
       then range_issues B data cfg field
       else [])
    fieldnames.

(** *** calculate_statistics *)

(** The profile of a numeric or integer column with at least one value. *)
Record numeric_profile := NumericProfile {
  np_type : coltype;
  np_count : nat;
  np_min : pyfloat;
  np_max : pyfloat;
  np_range : pyfloat;
  np_mean : pyfloat;
  np_median : pyfloat;
  np_std_dev : pyfloat;
  np_variance : pyfloat;
  np_p5 : pyfloat;
  np_q1 : pyfloat;
  np_q3 : pyfloat;
  np_p95 : pyfloat;
  np_iqr : pyfloat;
  np_outliers : nat;
  np_extreme_outliers : nat;
  np_skewness : pyfloat;
  np_confidence : Q
}.

(** An entry of [top_values]. *)
Record top_value := TopValue {
  tv_value : string;
  tv_count : nat;
  tv_percentage : Q
}.

(** The profile of any other column. *)
Record categorical_profile := CategoricalProfile {
  cp_type : coltype;
  cp_unique_count : nat;
  cp_cardinality : Q;
  cp_top_values : list top_value;
  cp_confidence : Q
}.

(** An entry of [stats['columns']]. *)
Inductive column_stats :=
| Numeric (p : numeric_profile)
| NoValues (col_type : coltype)        (* [{'type': col_type, 'count': 0}] *)
| Categorical (p : categorical_profile).

Inductive level := info | warning | error.

#[global] Instance level_eq_dec : EqDecision level.
Proof. solve_decision. Defined.

(** The texts of [validation_messages], each with the values it prints. *)
Inductive text :=
| SampleSizeBelow (n : nat) (min_sample_size : Q)
| SampleSizeAdequate (n : nat)
| DataQuality (quality_score min_completeness : Q)
| DataQualityBelow (quality_score min_completeness : Q)
| OutlierRatio (outlier_ratio max_outlier_ratio : Q)
| HighOutlierRatio (outlier_ratio max_outlier_ratio : Q)
| Issue (i : issue).

Record stats := Stats {
  total_records : nat;
  columns : gmap string column_stats;
  missing_values : gmap string nat;
  quality_score : Q;
  validation_issues : list issue;
  validation_messages : option (list (level * text))
}.

(** [col_info.get('type', 'unknown')] and [col_info.get('confidence', 0)] *)
Definition type_or_unknown (column_types : gmap string column_type)
    (field : string) : coltype :=
  default unknown (lookup_type column_types field).

Definition confidence_or_0 (column_types : gmap string column_type)
    (field : string) : Q :=
  default 0%Q (ct_confidence <$> column_types !! field).

(** [sorted_vals[i] if n > 0 else 0] *)
Definition at_index (sorted_vals : list pyfloat) (n i : nat) : pyfloat :=
  if (0 <? n)%nat then nth i sorted_vals (Finite 0) else Finite 0.

(** [int(p * n)] for a percentile fraction [p], with the exact product:
    the float product of [0.05] or [0.95] and a length has the same
    integer part, for the lengths up to three million at least. *)
Definition percentile_index (p : Q) (n : nat) : nat :=
  Z.to_nat (int_of (p * of_nat n)).

(** [sum(1 for v in values if v < lo or v > hi)] *)
Definition count_outside (lo hi : pyfloat) (values : list pyfloat) : nat :=
  length (List.filter (fun v => flt v lo || flt hi v) values).

(** The numeric branch, for the non-empty list [x :: rest] of parsed
    values. *)
Definition numeric_stats (B : pybuiltins) (col_type : coltype)
    (confidence : Q) (x : pyfloat) (rest : list pyfloat) : numeric_profile :=
  let numeric_values := x :: rest in
  let n := length numeric_values in
  let mean_val := fdiv B (fsum B numeric_values) (Finite (of_nat n)) in
  let variance :=
    fdiv B (fsum B (map (fun x => pow B (fsub B x mean_val) 2) numeric_values))
           (Finite (of_nat n)) in
  let std_dev := pow B variance (5 # 10) in
  let sorted_vals := sorted_floats B numeric_values in
  let p5 := at_index sorted_vals n (percentile_index (5 # 100) n) in
  let q1 := at_index sorted_vals n (n / 4) in
  let median := at_index sorted_vals n (n / 2) in
  let q3 := at_index sorted_vals n (3 * n / 4) in
  let p95 := at_index sorted_vals n (percentile_index (95 # 100) n) in
  let iqr := fsub B q3 q1 in
  let outlier_count :=
    count_outside (fsub B q1 (fmul B (Finite (15 # 10)) iqr))
                  (fadd B q3 (fmul B (Finite (15 # 10)) iqr)) numeric_values in
  let extreme_outlier_count :=
    count_outside (fsub B q1 (fmul B (Finite 3) iqr))
                  (fadd B q3 (fmul B (Finite 3) iqr)) numeric_values in
  let skewness :=
    if flt (Finite 0) std_dev
    then fdiv B (fsum B (map (fun x => pow B (fsub B x mean_val) 3) numeric_values))
                (fmul B (Finite (of_nat n)) (pow B std_dev 3))
    else Finite 0 in
  {| np_type := col_type;
     np_count := n;
     np_min := py_min x rest;
     np_max := py_max x rest;
     np_range := fsub B (py_max x rest) (py_min x rest);
     np_mean := mean_val;
     np_median := median;
     np_std_dev := std_dev;
     np_variance := variance;
     np_p5 := p5;
     np_q1 := q1;
     np_q3 := q3;
     np_p95 := p95;
     np_iqr := iqr;
     np_outliers := outlier_count;
     np_extreme_outliers := extreme_outlier_count;
     np_skewness := skewness;
     np_confidence := confidence |}.

(** [value_counts[v] += 1] on a [defaultdict(int)], kept in first-seen
    order. *)
Fixpoint increment (v : string) (value_counts : list (string * nat))
  : list (string * nat) :=
  match value_counts with
  | [] => [(v, 1)]
  | (k, c) :: rest =>
      if String.eqb k v then (k, S c) :: rest
      else (k, c) :: increment v rest
  end.

Definition count_values (values : list string) : list (string * nat) :=
  foldl (fun value_counts v => if truthy v then increment v value_counts else value_counts)
        [] values.

(** The other branch. *)
Definition categorical_stats (e : pyenv) (col_type : coltype)
    (confidence : Q) (data_len : nat) (values : list string)
  : categorical_profile :=
  let unique_values := pyset e (List.filter truthy values) in
  let value_counts := count_values values in
  let top_values :=
    take 10 (sorted (fun a b : string * nat => (snd b <? snd a)%nat) value_counts) in
  {| cp_type := col_type;
     cp_unique_count := length unique_values;
     cp_cardinality :=
       if (0 <? length values)%nat
       then (of_nat (length unique_values) / of_nat (length values))%Q
       else 0%Q;
     cp_top_values :=
       map (fun vc : string * nat =>
              TopValue (fst vc) (snd vc) (of_nat (snd vc) / of_nat data_len * 100)%Q)
           top_values;
     cp_confidence := confidence |}.

(** One iteration of the loop over [fieldnames]: the number of missing
    values and the entry stored in [stats['columns']]. *)
Definition column_stats_of (B : pybuiltins) (e : pyenv) (data : list row)
    (column_types : gmap string column_type) (field : string)
  : nat * column_stats :=
  let values := map (fun r => get r field) data in
  let missing := length (List.filter (fun v => negb (truthy v)) values) in
  let col_type := type_or_unknown column_types field in
  let confidence := confidence_or_0 column_types field in
  (missing,
   if bool_decide (col_type = numeric \/ col_type = integer) then
     match parse_values B values with
     | x :: rest => Numeric (numeric_stats B col_type confidence x rest)
     | [] => NoValues col_type
     end
   else
     Categorical (categorical_stats e col_type confidence (length data) values)).

(** [sum(d.values())] for a dictionary of counters. *)
Definition sum_values (d : gmap string nat) : nat :=
  sum_list (map snd (map_to_list d)).

(** The loop over [fieldnames], from the state
    [(stats['columns'], stats['missing_values'])]. *)
Definition stats_loop (B : pybuiltins) (e : pyenv) (data : list row)
    (column_types : gmap string column_type) (fieldnames : list string)
  : gmap string column_stats * gmap string nat :=
  foldl
    (fun acc field =>
       (<[field := (column_stats_of B e data column_types field).2]> acc.1,
        <[field := (column_stats_of B e data column_types field).1]> acc.2))
    (∅, ∅) fieldnames.

Definition calculate_statistics (B : pybuiltins) (e : pyenv)
    (data : list row) (fieldnames : list string)
    (column_types : gmap string column_type) : stats :=
  match data with
  | [] => Stats 0 ∅ ∅ 0 [] None
  | _ :: _ =>
      let '(cols, missing_vals) := stats_loop B e data column_types fieldnames in
      let quality :=
        if (0 <? size cols)%nat then
          let total_cells := (length data * size cols)%nat in
          let total_missing := sum_values missing_vals in
          if (0 <? total_cells)%nat
          then (1 - of_nat total_missing / of_nat total_cells)%Q
          else 0%Q
        else 0%Q in
      Stats (length data) cols missing_vals quality [] None
  end.

(** *** validate_data *)

(** [col.get('outliers', 0)] and [col.get('count', 0)] of the columns whose
    ['type'] is numeric or integer. *)
Definition entry_type (c : column_stats) : coltype :=
  match c with
  | Numeric p => np_type p
  | NoValues t => t
  | Categorical p => cp_type p
  end.

Definition entry_is_numeric (c : column_stats) : bool :=
  bool_decide (entry_type c = numeric \/ entry_type c = integer).

Definition entry_outliers (c : column_stats) : nat :=
  match c with
  | Numeric p => np_outliers p
  | _ => 0
  end.

Definition entry_count (c : column_stats) : nat :=
  match c with
  | Numeric p => np_count p
  | _ => 0
  end.

Definition sum_over_numeric (f : column_stats -> nat)
    (cols : gmap string column_stats) : nat :=
  sum_list (map f (List.filter entry_is_numeric (map snd (map_to_list cols)))).

(** Returns [(validation_passed, validation_messages)] and the [stats]
    dictionary as the call leaves it. *)
Definition validate_data (data : list row) (st : stats) (cfg : config)
    (issues : list issue) : bool * list (level * text) * stats :=
  match data with
  | [] => (false, [], st)
  | _ :: _ =>
      let min_completeness := threshold cfg "data_quality" "min_completeness" (95 # 100) in
      let min_sample_size := threshold cfg "data_quality" "min_sample_size" 100 in
      let max_outlier_ratio := threshold cfg "data_quality" "max_outlier_ratio" (2 # 100) in
      (* Level 1: sample size *)
      let '(passed1, messages1) :=
        if Qltb (of_nat (length data)) min_sample_size
        then (false, [(warning, SampleSizeBelow (length data) min_sample_size)])
        else (true, [(info, SampleSizeAdequate (length data))]) in
      (* Level 2: completeness *)
      let '(passed2, messages2) :=
        if Qle_bool min_completeness (quality_score st)
        then (passed1, messages1 ++ [(info, DataQuality (quality_score st) min_completeness)])
        else (false, messages1 ++ [(error, DataQualityBelow (quality_score st) min_completeness)]) in
      (* Level 3: outlier ratio *)
      let total_outliers := sum_over_numeric entry_outliers (columns st) in
      let numeric_records := sum_over_numeric entry_count (columns st) in
      let messages3 :=
        if (0 <? numeric_records)%nat then
          let outlier_ratio := ratio total_outliers numeric_records in
          if Qle_bool outlier_ratio max_outlier_ratio
          then messages2 ++ [(info, OutlierRatio outlier_ratio max_outlier_ratio)]
          else messages2 ++ [(warning, HighOutlierRatio outlier_ratio max_outlier_ratio)]
        else messages2 in
      (* Level 4: the issues found by validate_numeric_ranges *)
      let messages4 := messages3 ++ map (fun i => (warning, Issue i)) issues in
      (passed2, messages4,
       {| total_records := total_records st;
          columns := columns st;
          missing_values := missing_values st;
          quality_score := quality_score st;
          validation_issues := validation_issues st;
          validation_messages := Some messages4 |})
  end%list.

(** The three stages in the order [main] runs them, with the range check
    that feeds the last one. *)
Definition run (B : pybuiltins) (e : pyenv) (data : list row)
    (fieldnames : list string) (cfg : config) :=
  let '(column_types, type_warnings) := detect_column_types B e data fieldnames in
  let st := calculate_statistics B e data fieldnames column_types in
  let issues := validate_numeric_ranges B data fieldnames column_types cfg in
  let '(validation_result, messages, st') := validate_data data st cfg issues in
  (column_types, type_warnings, st', validation_result, messages).

End DataIntake.

(** ** The merge rule as the specification words it *)

Module MergeSpec.
Import PyRuntime CapsuleIndexJob.

(** The record an entry contributes: the capsule, annotated with the
    source it was found in. *)
Definition record_of (x : entry) : capsule := stamp x.1.1 x.1.2 x.2.

Definition spec_status (c : capsule) : string :=
  match c !! "status" with Some (VStr s) => s | _ => "" end.

Definition spec_timestamp (c : capsule) : string :=
  match c !! "timestamp_utc" with Some (VStr s) => s | _ => "" end.

Definition spec_tags (c : capsule) : list string :=
  match c !! "tags" with Some (VList l) => l | _ => [] end.

(** The three rules, first match wins. *)
Definition spec_resolve (e : pyenv) (winner candidate : capsule) : capsule :=
  if bool_decide (spec_status candidate = "green")
     && bool_decide (spec_status winner ≠ "green")
  then candidate                                   (* rule 1 *)
  else if String.ltb (spec_timestamp candidate) (spec_timestamp winner)
  then candidate                                   (* rule 2 *)
  else <["tags" := VList (pyset_union e (spec_tags winner) (spec_tags candidate))]>
         winner.                                   (* rule 3 *)

(** The first record is the winner; every later one is resolved against
    the winner so far. *)
Definition spec_winner (e : pyenv) (records : list capsule) : option capsule :=
  match records with
  | [] => None
  | first :: rest => Some (foldl (spec_resolve e) first rest)
  end.

(** The entries carrying the identifier [cid]. *)
Definition has_id (cid : string) (x : entry) : bool :=
  bool_decide (x.1.1 !! "capsule_id" = Some (VStr cid)).

(** The Master Index entry the rules give [cid]. *)
Definition spec_index (e : pyenv) (all_capsules : list entry) (cid : string)
  : option capsule :=
  spec_winner e (map record_of (List.filter (has_id cid) all_capsules)).

(** Field typing of the capsule schema: the four required fields hold
    strings, [tags] holds a list of strings. *)
Definition well_typed (c : capsule) : bool :=
  forallb (fun field => match c !! field with
                        | Some (VList _) => false
                        | _ => true
                        end) required
  && match c !! "tags" with Some (VStr _) => false | _ => true end.

(** A record that passes the admission filter and is typed as the schema
    says. *)
Definition admitted (c : capsule) : bool := validate_schema c && well_typed c.

Definition all_admitted (l : list entry) : Prop :=
  Forall (fun x : entry => admitted x.1.1 = true) l.

(** Manifests whose capsules are all typed as the schema says. *)
Definition typed_manifests (manifests : list manifest) : Prop :=
  Forall (fun m : manifest => Forall (fun c => well_typed c = true) m.2) manifests.

End MergeSpec.

(** ** The profiling pipeline as the specification words it *)

Module IntakeSpec.
Import PyRuntime DataIntake.

(** The text values of a column, in row order. *)
Definition column (data : list row) (field : string) : list string :=
  map (fun r => get r field) data.

(** The non-empty values of a column, in row order. *)
Definition non_missing (data : list row) (field : string) : list string :=
  List.filter truthy (column data field).

(** "At most the first 100 non-empty values per column". *)
Definition spec_sample (data : list row) (field : string) : list string :=
  take 100 (non_missing data field).

(** The number of rows whose value for the column is empty or absent. *)
Definition spec_missing (data : list row) (field : string) : nat :=
  length (List.filter (fun v => negb (truthy v)) (column data field)).

(** The columns of a table: its distinct field names. *)
Definition spec_columns (fieldnames : list string) : list string :=
  remove_dups fieldnames.

(** [1 - (Σ missing_values) / (row_count × column_count)] *)
Definition spec_quality (data : list row) (fieldnames : list string) : Q :=
  (1 - of_nat (sum_list (map (spec_missing data) (spec_columns fieldnames)))
       / of_nat (length data * length (spec_columns fieldnames)))%Q.




End IntakeSpec.

(** ** Concrete inputs *)

Module Examples.
Import PyRuntime CapsuleIndexJob DataIntake.

(** An interpreter whose sets iterate in reverse insertion order, and one
    whose sets iterate in insertion order. *)
Definition ex_env : pyenv := PyEnv reverse.
Definition ex_env' : pyenv := PyEnv (fun l => l).

(** A float unit that computes exactly.  [float] reads the texts made of
    decimal digits only and the three special values; every other text is
    rejected.  Nothing is rounded, squares and cubes are exact, and any
    other power is a stand-in (no statement below depends on its values).
    A list that holds a NaN is left in the order it has, which is what
    sorting returns for the one-element list of the example below. *)
Fixpoint digits (s : string) (acc : N) : option N :=
  match s with
  | EmptyString => Some acc
  | String a r =>
      let n := N_of_ascii a in
      if ((48 <=? n) && (n <=? 57))%N then digits r (acc * 10 + (n - 48))%N
      else None
  end.

Definition ex_float (s : string) : option pyfloat :=
  if String.eqb s "nan" then Some NaN
  else if String.eqb s "inf" then Some PosInf
  else if String.eqb s "-inf" then Some NegInf
  else
    match s with
    | EmptyString => None
    | _ => (fun n => Finite (inject_Z (Z.of_N n))) <$> digits s 0%N
    end.

Definition ex_pow (x : pyfloat) (y : Q) : pyfloat :=
  match x with
  | Finite q =>
      if Qeq_bool y 2 then Finite (q * q)
      else if Qeq_bool y 3 then Finite (q * q * q)
      else Finite q
  | NegInf => if Qeq_bool y 3 then NegInf else PosInf
  | PosInf => PosInf
  | NaN => NaN
  end.

Definition ex_builtins : pybuiltins :=
  PyBuiltins ex_float Finite ex_pow (fun l => l).

(** Capsules. *)
Definition ex_first : capsule :=
  list_to_map [("capsule_id", VStr "c1"); ("status", VStr "red");
               ("timestamp_utc", VStr "2025-01-02T00:00:00Z"); ("hash", VStr "h1");
               ("tags", VList ["x"])].
Definition ex_second : capsule :=
  list_to_map [("capsule_id", VStr "c1"); ("status", VStr "red");
               ("timestamp_utc", VStr "2025-01-03T00:00:00Z"); ("hash", VStr "h2");
               ("tags", VList ["y"; "x"])].
Definition ex_third : capsule :=
  list_to_map [("capsule_id", VStr "c1"); ("status", VStr "green");
               ("timestamp_utc", VStr "2025-01-04T00:00:00Z"); ("hash", VStr "h3")].
Definition ex_entries : list entry :=
  [(ex_first, "./", "./manifest_a.json"); (ex_second, "./", "./manifest_b.yaml");
   (ex_third, "./", "./manifest_c.yml")].

(** The two records of Scenario 3. *)
Definition ex_pending : capsule :=
  list_to_map [("capsule_id", VStr "c1"); ("status", VStr "pending");
               ("timestamp_utc", VStr "2025-01-02T00:00:00Z"); ("hash", VStr "h1")].
Definition ex_green : capsule :=
  list_to_map [("capsule_id", VStr "c1"); ("status", VStr "green");
               ("timestamp_utc", VStr "2025-01-03T00:00:00Z"); ("hash", VStr "h2")].

(** A record without [hash], alone under its identifier. *)
Definition ex_no_hash : capsule :=
  list_to_map [("capsule_id", VStr "c9"); ("status", VStr "green");
               ("timestamp_utc", VStr "2025-01-05T00:00:00Z")].
Definition ex_manifests : list manifest :=
  [("./", "./manifest_a.json", [ex_first; ex_no_hash])].

(** Row tables. *)
Definition row1 (field v : string) : row := {[ field := v ]}.

(** Scenario 1. *)
Definition ex_scenario1 : list row := [row1 "a" "1"; row1 "a" "2"; row1 "a" "x"].

(** 101 rows: the first has no value for [a], the other 100 have one. *)
Definition ex_late_values : list row := row1 "a" "" :: replicate 100 (row1 "a" "v").


(** A numeric column and a categorical one. *)
Definition ex_table : list row :=
  [ {[ "n" := "4"; "k" := "u" ]}; {[ "n" := "1"; "k" := "v" ]};
    {[ "n" := "30"; "k" := "u" ]}; {[ "n" := "2" ]}; {[ "n" := "3"; "k" := "w" ]} ].

Definition ex_config : config := Config None.

(** The types inferred for [ex_table], and the profile of its column [n]. *)
Definition ex_types : gmap string column_type :=
  (detect_column_types ex_builtins ex_env ex_table ["n"; "k"]).1.

Definition ex_profile_n : numeric_profile :=
  numeric_stats ex_builtins integer (5 # 5) (Finite 4)
    [Finite 1; Finite 30; Finite 2; Finite 3].




(** 400 rows: [2] in the first 100, [inf] in the others. *)
Definition ex_late_inf : list row :=
  (replicate 100 (row1 "a" "2") ++ replicate 300 (row1 "a" "inf"))%list.

End Examples.

(** ** Views of the master index *)

Module MergeViews.
Import PyRuntime CapsuleIndexJob MergeSpec.

(** Two records that agree on every field but [tags]. *)
Definition same_core (w r : capsule) : Prop :=
  forall k, k ≠ "tags" -> w !! k = r !! k.

(** The identifier an entry carries. *)
Definition carries (cid : string) (x : entry) : Prop :=
  x.1.1 !! "capsule_id" = Some (VStr cid).

End MergeViews.

(** ** Views of a profile *)

Module IntakeViews.
Import PyRuntime DataIntake.

(** [d[k]] on a dictionary kept as an association list. *)
Fixpoint assoc (k : string) (d : list (string * nat)) : option nat :=
  match d with
  | [] => None
  | (k', c) :: rest => if String.eqb k' k then Some c else assoc k rest
  end.

(** The number of times a text occurs in a list. *)
Definition occurrences (k : string) (values : list string) : nat :=
  length (List.filter (String.eqb k) values).

(** The state of [value_counts] after the values [seen]: one entry per
    non-empty text seen, holding the number of times it was seen. *)
Definition counted (seen : list string) (d : list (string * nat)) : Prop :=
  NoDup d.*1 /\
  forall k, assoc k d
            = if bool_decide (truthy k = true /\ 0 < occurrences k seen)
              then Some (occurrences k seen) else None.

(** The order [top_values] is sorted by: larger count first. *)
Definition by_count_desc (a b : string * nat) : bool := (snd b <? snd a)%nat.

(** The field and the count an issue reports. *)
Definition issue_field (i : issue) : string :=
  match i with
  | InvalidNumeric f _ | FrequencyOutOfRange f _ _ _
  | NegativeEnergy f _ | LatticeOutOfRange f _ _ _ => f
  end.

Definition issue_count (i : issue) : nat :=
  match i with
  | InvalidNumeric _ k | FrequencyOutOfRange _ k _ _
  | NegativeEnergy _ k | LatticeOutOfRange _ k _ _ => k
  end.

End IntakeViews.

(** ** scripts/data_intake_v0.7.0.py: configuration, reading and report *)

Module IntakeShell.
Import PyRuntime DataIntake.

(** *** get_default_config and load_config *)

(** A configuration dictionary, with the entries the script looks at: the
    ['version'] shown when the file is loaded, ['thresholds'] and
    ['file_paths'].  A boolean threshold is the number it equals ([True] is
    [1]). *)
Record config_file := ConfigFile {
  cf_version : option string;
  cf_thresholds : option (gmap string (gmap string Q));
  cf_file_paths : option (gmap string string)
}.

(** The configuration the stages receive. *)
Definition config_of (c : config_file) : config := Config (cf_thresholds c).

Definition default_thresholds : gmap string (gmap string Q) :=
  {[ "data_quality" :=
       {[ "min_completeness" := (95 # 100)%Q;
          "max_missing_values" := (5 # 100)%Q;
          "min_sample_size" := 100%Q;
          "max_outlier_ratio" := (2 # 100)%Q ]};
     "validation" :=
       {[ "numeric_range_check" := 1%Q;
          "categorical_validation" := 1%Q;
          "temporal_consistency" := 1%Q;
          "duplicate_detection" := 1%Q ]};
     "processing" :=
       {[ "batch_size" := 1000%Q;
          "max_memory_mb" := 4096%Q;
          "parallel_threads" := 4%Q;
          "chunk_size" := 500%Q ]};
     "lattice_parameters" :=
       {[ "min_lattice_constant" := (1 # 10)%Q;
          "max_lattice_constant" := 100%Q;
          "energy_threshold" := (1 # 1000000)%Q;
          "precision" := (1 # 10000000000)%Q ]};
     "radio_frequency" :=
       {[ "min_frequency_hz" := 1000000%Q;
          "max_frequency_hz" := 1000000000000%Q;
          "sample_rate_hz" := 1000000000%Q;
          "bandwidth_hz" := 100000000%Q ]} ]}.

Definition get_default_config : config_file :=
  {| cf_version := Some "0.7.0";
     cf_thresholds := Some default_thresholds;
     cf_file_paths :=
       Some {[ "raw_data" := "raw_csv/";
               "processed_data" := "summaries/";
               "audit_logs" := "capsules/";
               "temp_directory" := "/tmp/luft_processing/" ]} |}.

(** What opening and parsing the configuration file gives: no such file,
    an exception ([JSONDecodeError] or any other), or a dictionary. *)
Inductive config_read :=
| NoConfigFile
| ConfigError
| ConfigParsed (c : config_file).

(** [all(key in config for key in ['thresholds', 'file_paths'])] *)
Definition config_complete (c : config_file) : bool :=
  bool_decide (is_Some (cf_thresholds c)) && bool_decide (is_Some (cf_file_paths c)).

Definition load_config (r : config_read) : config_file :=
  match r with
  | ConfigParsed c => if config_complete c then c else get_default_config
  | NoConfigFile => get_default_config
  | ConfigError => get_default_config
  end.

(** *** read_csv_data *)

(** A row as [csv.DictReader] yields it: the cells under the field names
    and, for a line with more cells than the header has names, the list of
    the surplus cells, which the reader stores under the key [None]
    ([surplus] is empty when there is no such key).  The stages after the
    reader look up field names only, so they see [cells]. *)
Record csv_row := CsvRow {
  cells : row;
  surplus : list string
}.

(** What opening the input gives: one of the three failures the function
    catches, or the header and the rows of [csv.DictReader]. *)
Inductive csv_file :=
| FileNotFound
| PermissionDenied
| ReadFailure (message : string)
| Opened (fieldnames : list string) (rows : list csv_row).

(** The entries of [errors] and of [warnings], with the values they
    print. *)
Inductive read_error :=
| NoHeaders
| FileNotFoundError (filepath : string)
| PermissionError (filepath : string)
| ErrorReadingFile (message : string).

Inductive read_warning :=
| DuplicateColumnNames
| ChunkedRead (chunk_size : nat).

(** [row and any(row.values())]: a text is true when it is not empty, and
    the list of surplus cells, when there is one, is not empty. *)
Definition keep_row (r : csv_row) : bool :=
  existsb truthy (map snd (map_to_list (cells r)))
  || negb (bool_decide (surplus r = [])).

(** [chunk_size and len(data) >= chunk_size] *)
Definition chunk_full (chunk_size : option nat) (data : list csv_row) : bool :=
  match chunk_size with
  | Some n => (0 <? n)%nat && (n <=? length data)%nat
  | None => false
  end.

(** The loop over the reader, from the state [(data, warnings)]. *)
Fixpoint read_rows (chunk_size : option nat) (rows data : list csv_row)
    (warnings : list read_warning) : list csv_row * list read_warning :=
  match rows with
  | [] => (data, warnings)
  | r :: rest =>
      let data' := if keep_row r then (data ++ [r])%list else data in
      if chunk_full chunk_size data'
      then (data',
            (warnings ++ [ChunkedRead (default 0 chunk_size)])%list)
      else read_rows chunk_size rest data' warnings
  end.

(** Returns [(data, fieldnames, errors, warnings)]. *)
Definition read_csv_data (e : pyenv) (filepath : string) (file : csv_file)
    (chunk_size : option nat)
  : option (list csv_row) * option (list string) * list read_error
    * list read_warning :=
  match file with
  | FileNotFound => (None, None, [FileNotFoundError filepath], [])
  | PermissionDenied => (None, None, [PermissionError filepath], [])
  | ReadFailure message => (None, None, [ErrorReadingFile message], [])
  | Opened [] _ => (None, None, [NoHeaders], [])
  | Opened fieldnames rows =>
      let warnings :=
        if bool_decide (length fieldnames ≠ length (pyset e fieldnames))
        then [DuplicateColumnNames] else [] in
      let '(data, warnings') := read_rows chunk_size rows [] warnings in
      (Some data, Some fieldnames, [], warnings')
  end.

(** *** create_comprehensive_capsule: what goes in which section *)

(** [[msg for level, msg in validation_messages if level == l]] *)
Definition messages_of (l : level) (validation_messages : list (level * text))
  : list text :=
  map snd (List.filter (fun m => bool_decide (m.1 = l)) validation_messages).

(** [stats['columns'].items()] *)
Definition column_items (st : stats) : list (string * column_stats) :=
  map_to_list (columns st).

Definition numeric_cols (st : stats) : list string :=
  map fst (List.filter (fun ci => entry_is_numeric ci.2) (column_items st)).

Definition entry_is_categorical (c : column_stats) : bool :=
  bool_decide (entry_type c ∈ [categorical; categorical_high; boolean]).

Definition categorical_cols (st : stats) : list string :=
  map fst (List.filter (fun ci => entry_is_categorical ci.2) (column_items st)).

Definition other_cols (st : stats) : list string :=
  map fst
    (List.filter
       (fun ci => bool_decide (ci.1 ∉ numeric_cols st)
                  && bool_decide (ci.1 ∉ categorical_cols st))
       (column_items st)).

(** The errors listed ([errors[:20]]) and the number announced as "more". *)
Definition listed_errors {A} (errors : list A) : list A * nat :=
  (take 20 errors, if (20 <? length errors)%nat then length errors - 20 else 0).

End IntakeShell.

(** ** More concrete inputs *)

Module MoreExamples.
Import PyRuntime CapsuleIndexJob DataIntake IntakeShell Examples.

(** A green record earlier than the pending record of Scenario 3. *)
Definition ex_early_green : capsule :=
  list_to_map [("capsule_id", VStr "c1"); ("status", VStr "green");
               ("timestamp_utc", VStr "2025-01-01T00:00:00Z"); ("hash", VStr "h0")].

(** A record under an identifier of its own. *)
Definition ex_other_id : capsule :=
  list_to_map [("capsule_id", VStr "c2"); ("status", VStr "red");
               ("timestamp_utc", VStr "2025-02-01T00:00:00Z"); ("hash", VStr "h9");
               ("tags", VList ["z"; "z"])].

(** A column of 0/1 flags. *)
Definition ex_flags : list row := [row1 "on" "1"; row1 "on" "0"; row1 "on" "1"].

(** A column declared numeric that holds a text [float] rejects. *)
Definition ex_mistyped : list row := [row1 "n" "7"; row1 "n" "x"; row1 "n" "9"].

(** The rows of a file: one blank row among four, under a header that
    repeats its only name; the last row has a cell more than the header. *)
Definition ex_file_rows : list csv_row :=
  [CsvRow (row1 "a" "1") []; CsvRow (row1 "a" "") [];
   CsvRow (row1 "a" "2") []; CsvRow (row1 "a" "") ["3"]].

(** The statistics of [ex_table]. *)
Definition ex_stats : stats :=
  calculate_statistics ex_builtins ex_env ex_table ["n"; "k"] ex_types.

(** The index after the first of [ex_entries]. *)
Definition ex_index1 : gmap string capsule :=
  {[ "c1" := stamp ex_first "./" "./manifest_a.json" ]}.

End MoreExamples.

(** * Proofs *)

Import PyRuntime CapsuleIndexJob MergeSpec DataIntake IntakeSpec Examples.
Local Open Scope list_scope.

(** ** The capsule merge *)

Lemma admitted_fields (c : capsule) :
  admitted c = true ->
  exists cid st ts h,
    c !! "capsule_id" = Some (VStr cid) /\ c !! "status" = Some (VStr st) /\
    c !! "timestamp_utc" = Some (VStr ts) /\ c !! "hash" = Some (VStr h) /\
    (c !! "tags" = None \/ exists l, c !! "tags" = Some (VList l)).
Proof.
  unfold admitted, validate_schema, well_typed, required. cbn [forallb].
  rewrite !andb_true_iff, !bool_decide_eq_true.
  intros [(Hid & Hts & Hst & Hh & _) [(Tid & Tts & Tst & Th & _) Ttags]].
  destruct Hid as [vid Hid], Hts as [vts Hts], Hst as [vst Hst], Hh as [vh Hh].
  rewrite Hid in Tid; rewrite Hts in Tts; rewrite Hst in Tst; rewrite Hh in Th.
  destruct vid as [cid|]; [|done]. destruct vts as [ts|]; [|done].
  destruct vst as [st|]; [|done]. destruct vh as [h|]; [|done].
  exists cid, st, ts, h. repeat split; try done.
  destruct (c !! "tags") as [[s|l]|]; [done| right; eauto | by left].
Qed.

Lemma stamp_lookup (c : capsule) repo path k :
  k ≠ "source_repo" -> k ≠ "manifest_path" -> stamp c repo path !! k = c !! k.
Proof. intros. unfold stamp. by rewrite !lookup_insert_ne. Qed.

Lemma admitted_stamp (c : capsule) repo path :
  admitted c = true -> admitted (stamp c repo path) = true.
Proof.
  unfold admitted, validate_schema, well_typed, required. cbn [forallb].
  by rewrite !stamp_lookup.
Qed.

Lemma admitted_retag (c : capsule) l :
  admitted c = true -> admitted (<["tags" := VList l]> c) = true.
Proof.
  unfold admitted, validate_schema, well_typed, required. cbn [forallb].
  rewrite lookup_insert_eq. rewrite !lookup_insert_ne by done.
  rewrite !andb_true_iff. tauto.
Qed.

Lemma admitted_resolve e (w c : capsule) :
  admitted w = true -> admitted c = true -> admitted (spec_resolve e w c) = true.
Proof.
  intros Hw Hc. unfold spec_resolve.
  repeat case_match; auto using admitted_retag.
Qed.

Lemma admitted_foldl e (rest : list capsule) : forall first,
  admitted first = true -> Forall (fun c => admitted c = true) rest ->
  admitted (foldl (spec_resolve e) first rest) = true.
Proof.
  induction rest as [|c rest IH]; intros first Hf Hr; [done|].
  inversion_clear Hr. cbn. apply IH; auto using admitted_resolve.
Qed.

Lemma spec_winner_snoc e (l : list capsule) r :
  spec_winner e (l ++ [r]) =
  Some (match spec_winner e l with
        | None => r
        | Some w => spec_resolve e w r
        end).
Proof.
  destruct l as [|first rest]; [done|].
  cbn. by rewrite foldl_app.
Qed.

Lemma spec_winner_admitted e (l : list capsule) w :
  Forall (fun c => admitted c = true) l ->
  spec_winner e l = Some w -> admitted w = true.
Proof.
  destruct l as [|first rest]; [done|].
  intros H [= <-]. inversion_clear H. by apply admitted_foldl.
Qed.

Lemma merge_step_fresh e (mi : gmap string capsule) (c : capsule) repo path cid :
  c !! "capsule_id" = Some (VStr cid) -> mi !! cid = None ->
  merge_step e mi (c, repo, path) = Some (<[cid := stamp c repo path]> mi).
Proof. intros Hid Hmi. unfold merge_step. rewrite Hid. cbn. by rewrite Hmi. Qed.

Lemma merge_step_existing e (mi : gmap string capsule) (c existing : capsule)
    repo path cid :
  admitted c = true -> admitted existing = true ->
  c !! "capsule_id" = Some (VStr cid) -> mi !! cid = Some existing ->
  merge_step e mi (c, repo, path)
  = Some (<[cid := spec_resolve e existing (stamp c repo path)]> mi).
Proof.
  intros Hc Hex Hid Hmi.
  destruct (admitted_fields _ Hc) as (cid' & st & ts & h & Hid' & Hst & Hts & _ & Htags).
  destruct (admitted_fields _ Hex) as (_ & est & ets & _ & _ & Hest & Hets & _ & Hetags).
  unfold merge_step. rewrite Hid. cbn. rewrite Hmi, Hst. cbn.
  unfold spec_resolve, spec_status, spec_timestamp, spec_tags.
  rewrite !stamp_lookup by done. rewrite Hst, Hts, Hest, Hets.
  assert (Htg : get_tags existing = match existing !! "tags" with
                                     | Some (VList l) => l | _ => [] end).
  { unfold get_tags. by destruct Hetags as [->|[l' ->]]. }
  assert (Htc : get_tags c = match c !! "tags" with
                              | Some (VList l) => l | _ => [] end).
  { unfold get_tags. by destruct Htags as [->|[l' ->]]. }
  rewrite Htg, Htc.
  destruct (decide (VStr st = VStr "green")) as [Hg|Hg]; cbn;
    repeat case_bool_decide; simplify_eq; cbn; try done;
    destruct (String.ltb ts ets); done.
Qed.


Lemma spec_index_admitted e (pre : list entry) cid w :
  all_admitted pre -> spec_index e pre cid = Some w -> admitted w = true.
Proof.
  intros Hpre. unfold spec_index. apply spec_winner_admitted.
  apply Forall_map. apply Forall_forall. intros x Hx.
  apply list_elem_of_In, filter_In in Hx as [Hx _].
  unfold record_of. apply admitted_stamp.
  eapply (proj1 (Forall_forall _ _) Hpre). by apply list_elem_of_In.
Qed.

Lemma spec_index_snoc e (pre : list entry) (x : entry) cid :
  spec_index e (pre ++ [x]) cid =
  if has_id cid x
  then Some (match spec_index e pre cid with
             | None => record_of x
             | Some w => spec_resolve e w (record_of x)
             end)
  else spec_index e pre cid.
Proof.
  unfold spec_index. rewrite List.filter_app. cbn [List.filter].
  destruct (has_id cid x).
  - rewrite List.map_app. cbn [map]. apply spec_winner_snoc.
  - by rewrite app_nil_r.
Qed.

Lemma merge_step_spec e (mi : gmap string capsule) (pre : list entry) (x : entry) :
  all_admitted pre -> admitted x.1.1 = true ->
  (forall cid, mi !! cid = spec_index e pre cid) ->
  exists mi', merge_step e mi x = Some mi' /\ forall cid, mi' !! cid = spec_index e (pre ++ [x]) cid.
Proof.
  intros Hpre Hx Hmi. destruct x as [[c repo] path]. cbn in Hx.
  destruct (admitted_fields _ Hx) as (cid0 & _ & _ & _ & Hid & _).
  assert (Hhas : forall cid, has_id cid (c, repo, path) = bool_decide (cid0 = cid)).
  { intros cid. unfold has_id. cbn. rewrite Hid. apply bool_decide_ext.
    split; congruence. }
  destruct (mi !! cid0) as [existing|] eqn:Hlook.
  - assert (admitted existing = true) as Hex.
    { eapply spec_index_admitted; [done|]. by rewrite <- Hmi. }
    eexists. split; [by eapply merge_step_existing|].
    intros cid. rewrite spec_index_snoc, Hhas.
    case_bool_decide as Hc.
    + subst cid. rewrite lookup_insert_eq, <- Hmi, Hlook. done.
    + rewrite lookup_insert_ne by done. apply Hmi.
  - eexists. split; [by eapply merge_step_fresh|].
    intros cid. rewrite spec_index_snoc, Hhas.
    case_bool_decide as Hc.
    + subst cid. rewrite lookup_insert_eq, <- Hmi, Hlook. done.
    + rewrite lookup_insert_ne by done. apply Hmi.
Qed.

Lemma merge_loop_spec e (l : list entry) : forall (mi : gmap string capsule) pre,
  all_admitted pre -> all_admitted l ->
  (forall cid, mi !! cid = spec_index e pre cid) ->
  exists m, merge_loop e mi l = Some m /\ forall cid, m !! cid = spec_index e (pre ++ l) cid.
Proof.
  induction l as [|x l IH]; intros mi pre Hpre Hl Hmi.
  - exists mi. rewrite app_nil_r. done.
  - inversion_clear Hl as [|? ? Hx Hl'].
    destruct (merge_step_spec e mi pre x Hpre Hx Hmi) as (mi' & Hstep & Hmi').
    destruct (IH mi' (pre ++ [x])) as (m & Hm & Hspec); auto.
    { apply Forall_app. split; [done|]. by constructor. }
    exists m. cbn. rewrite Hstep. cbn. split; [done|].
    intros cid. rewrite Hspec. by rewrite <- app_assoc.
Qed.

Lemma merge_capsules_spec e (l : list entry) :
  all_admitted l ->
  exists m, merge_capsules e l = Some m /\ forall cid, m !! cid = spec_index e l cid.
Proof.
  intros Hl. apply (merge_loop_spec e l ∅ []); [constructor|done|].
  intros cid. by rewrite lookup_empty.
Qed.

Lemma pyset_perm e (l : list string) : pyenv_ok e -> pyset e l ≡ₚ remove_dups l.
Proof. intros He. apply He, NoDup_remove_dups. Qed.

Lemma elem_of_pyset e (l : list string) x : pyenv_ok e -> x ∈ pyset e l <-> x ∈ l.
Proof. intros He. rewrite (pyset_perm e l He). apply elem_of_remove_dups. Qed.

Lemma NoDup_pyset e (l : list string) : pyenv_ok e -> NoDup (pyset e l).
Proof. intros He. rewrite (pyset_perm e l He). apply NoDup_remove_dups. Qed.

Lemma length_pyset e (l : list string) :
  pyenv_ok e -> length (pyset e l) = length (remove_dups l).
Proof. intros He. by rewrite (pyset_perm e l He). Qed.

(** C3: folding admitted records in order, the entry of every identifier is
    the one the three rules give: the first record with that identifier,
    then each later one resolved against the winner so far (green over
    non-green: full replacement; else older timestamp: full replacement;
    else the winner is kept with its tags replaced by the union).  The tags
    of rule 3 are, as a set, the union of the two tag sets. *)
Theorem merge_capsules_follows_rules e (all_capsules : list entry) :
  all_admitted all_capsules ->
  (exists m : gmap string capsule,
      merge_capsules e all_capsules = Some m /\
      forall cid, m !! cid = spec_index e all_capsules cid)
  /\ (pyenv_ok e -> forall (a b : list string),
        NoDup (pyset_union e a b) /\
        forall t, t ∈ pyset_union e a b <-> t ∈ a \/ t ∈ b).
Proof.
  intros Hall. split; [by apply merge_capsules_spec|].
  intros He a b. split; [by apply NoDup_pyset|].
  intros t. unfold pyset_union. rewrite elem_of_pyset by done.
  apply elem_of_app.
Qed.



Lemma ex_env_ok : pyenv_ok ex_env.
Proof. intros l _. cbn. apply reverse_Permutation. Qed.

Lemma merge_capsules_follows_rules_witness :
  all_admitted ex_entries /\
  ((exists m : gmap string capsule,
      merge_capsules ex_env ex_entries = Some m /\
      forall cid, m !! cid = spec_index ex_env ex_entries cid)
  /\ (pyenv_ok ex_env -> forall (a b : list string),
        NoDup (pyset_union ex_env a b) /\
        forall t, t ∈ pyset_union ex_env a b <-> t ∈ a \/ t ∈ b)).
Proof.
  assert (H : all_admitted ex_entries).
  { repeat constructor. }
  split; [exact H|]. exact (merge_capsules_follows_rules ex_env ex_entries H).
Defined.


Lemma elem_of_collect (manifests : list manifest) (x : entry) :
  x ∈ collect manifests <->
  exists caps, (x.1.2, x.2, caps) ∈ manifests /\ x.1.1 ∈ caps /\ validate_schema x.1.1 = true.
Proof.
  unfold collect. rewrite list_elem_of_In, in_flat_map. split.
  - intros ([[repo path] caps] & Hm & Hx).
    apply in_map_iff in Hx as (c & <- & Hc). apply filter_In in Hc as [Hc Hv].
    exists caps. cbn. by rewrite !list_elem_of_In.
  - intros (caps & Hm & Hc & Hv). destruct x as [[c repo] path]. cbn in *.
    exists (repo, path, caps). rewrite <- list_elem_of_In. split; [done|].
    apply in_map_iff. exists c. split; [done|].
    apply filter_In. by rewrite <- list_elem_of_In.
Qed.

Lemma collect_admitted (manifests : list manifest) :
  typed_manifests manifests -> all_admitted (collect manifests).
Proof.
  intros Ht. apply Forall_forall. intros x Hx.
  apply elem_of_collect in Hx as (caps & Hm & Hc & Hv).
  unfold admitted. rewrite Hv. cbn.
  eapply Forall_forall in Ht; [|exact Hm]. cbn in Ht.
  eapply Forall_forall in Ht; [|exact Hc]. done.
Qed.

Lemma validate_schema_missing (c : capsule) field :
  field ∈ required -> c !! field = None -> validate_schema c = false.
Proof.
  intros Hf Hc. apply not_true_is_false. intros Hv.
  unfold validate_schema in Hv. rewrite forallb_forall in Hv.
  apply list_elem_of_In, Hv, bool_decide_eq_true in Hf.
  rewrite Hc in Hf. by destruct Hf.
Qed.

Lemma spec_index_none e (l : list entry) cid :
  (forall x, x ∈ l -> x.1.1 !! "capsule_id" ≠ Some (VStr cid)) ->
  spec_index e l cid = None.
Proof.
  intros H. unfold spec_index.
  replace (List.filter (has_id cid) l) with (@nil entry); [done|].
  symmetry. induction l as [|x l IH]; [done|]. cbn.
  unfold has_id at 1. rewrite bool_decide_eq_false_2.
  - apply IH. intros y Hy. apply H. by right.
  - apply H. by left.
Qed.

(** C8: a capsule that lacks one of the four required fields never enters
    the merge input; [main] still returns an index (no exception); every
    entry of that index has the four fields; and when every record carrying
    its identifier is rejected, the identifier is absent from the index. *)
Theorem missing_required_field_excluded e (manifests : list manifest)
    (c : capsule) (field : string) :
  field ∈ required -> c !! field = None ->
  typed_manifests manifests ->
  (forall repo path, (c, repo, path) ∉ collect manifests) /\
  exists m : gmap string capsule,
    main e manifests = Some m /\
    (forall cid w, m !! cid = Some w -> validate_schema w = true) /\
    (forall cid,
        c !! "capsule_id" = Some (VStr cid) ->
        (forall mf c', mf ∈ manifests -> c' ∈ mf.2 ->
                       c' !! "capsule_id" = Some (VStr cid) ->
                       validate_schema c' = false) ->
        m !! cid = None).
Proof.
  intros Hf Hc Ht.
  pose proof (validate_schema_missing c field Hf Hc) as Hbad.
  split.
  { intros repo path Hin. apply elem_of_collect in Hin as (_ & _ & _ & Hv).
    change (validate_schema c = true) in Hv. congruence. }
  pose proof (collect_admitted manifests Ht) as Hadm.
  destruct (merge_capsules_spec e (collect manifests) Hadm) as (m & Hm & Hspec).
  exists m. split; [exact Hm|]. split.
  - intros cid w Hw. rewrite Hspec in Hw.
    apply spec_index_admitted in Hw; [|done].
    unfold admitted in Hw. by apply andb_true_iff in Hw as [Hw _].
  - intros cid Hid Honly. rewrite Hspec. apply spec_index_none.
    intros x Hx Hxid. apply elem_of_collect in Hx as (caps & Hm' & Hc' & Hv).
    specialize (Honly _ _ Hm' Hc' Hxid). congruence.
Qed.


Lemma missing_required_field_excluded_witness :
  (forall repo path, (ex_no_hash, repo, path) ∉ collect ex_manifests) /\
  exists m : gmap string capsule,
    main ex_env ex_manifests = Some m /\
    (forall cid w, m !! cid = Some w -> validate_schema w = true) /\
    (forall cid,
        ex_no_hash !! "capsule_id" = Some (VStr cid) ->
        (forall mf c', mf ∈ ex_manifests -> c' ∈ mf.2 ->
                       c' !! "capsule_id" = Some (VStr cid) ->
                       validate_schema c' = false) ->
        m !! cid = None).
Proof.
  apply (missing_required_field_excluded ex_env ex_manifests ex_no_hash "hash").
  - unfold required. set_solver.
  - reflexivity.
  - repeat constructor.
Defined.

(** C1: what [merge_capsules] does with a green record and an older
    non-green record of the same identifier.  Folded non-green first, the
    green record survives; folded green first, the non-green record
    replaces it through the timestamp rule.  The winner depends on the
    order. *)
Theorem green_first_loses_to_older_record e (g o : capsule)
    (rg pg ro po cid : string) :
  admitted g = true -> admitted o = true ->
  g !! "capsule_id" = Some (VStr cid) -> o !! "capsule_id" = Some (VStr cid) ->
  spec_status g = "green" -> spec_status o ≠ "green" ->
  String.ltb (spec_timestamp o) (spec_timestamp g) = true ->
  (exists m : gmap string capsule,
      merge_capsules e [(o, ro, po); (g, rg, pg)] = Some m /\
      m !! cid = Some (stamp g rg pg)) /\
  (exists m : gmap string capsule,
      merge_capsules e [(g, rg, pg); (o, ro, po)] = Some m /\
      m !! cid = Some (stamp o ro po)).
Proof.
  intros Hg Ho Hgid Hoid Hgs Hos Hlt.
  assert (Hsg : spec_status (stamp g rg pg) = "green").
  { unfold spec_status in *. by rewrite stamp_lookup. }
  assert (Hso : spec_status (stamp o ro po) ≠ "green").
  { unfold spec_status in *. rewrite stamp_lookup by done. exact Hos. }
  assert (Htg : spec_timestamp (stamp g rg pg) = spec_timestamp g).
  { unfold spec_timestamp. by rewrite stamp_lookup. }
  assert (Hto : spec_timestamp (stamp o ro po) = spec_timestamp o).
  { unfold spec_timestamp. by rewrite stamp_lookup. }
  split.
  - destruct (merge_capsules_spec e [(o, ro, po); (g, rg, pg)]) as (m & Hm & Hspec).
    { by repeat constructor. }
    exists m. split; [done|]. rewrite Hspec. unfold spec_index. cbn [List.filter].
    unfold has_id. cbn [fst snd]. rewrite !bool_decide_eq_true_2 by done.
    cbn. unfold record_of. cbn [fst snd]. unfold spec_resolve.
    rewrite Hsg. rewrite !bool_decide_eq_true_2 by done. done.
  - destruct (merge_capsules_spec e [(g, rg, pg); (o, ro, po)]) as (m & Hm & Hspec).
    { by repeat constructor. }
    exists m. split; [done|]. rewrite Hspec. unfold spec_index. cbn [List.filter].
    unfold has_id. cbn [fst snd]. rewrite !bool_decide_eq_true_2 by done.
    cbn. unfold record_of. cbn [fst snd]. unfold spec_resolve.
    rewrite (bool_decide_eq_false_2 (spec_status (stamp o ro po) = "green")) by done.
    cbn. by rewrite Hto, Htg, Hlt.
Qed.


Lemma green_first_loses_to_older_record_witness :
  (exists m : gmap string capsule,
      merge_capsules ex_env [(ex_pending, "./", "a"); (ex_green, "./", "b")] = Some m /\
      m !! "c1" = Some (stamp ex_green "./" "b")) /\
  (exists m : gmap string capsule,
      merge_capsules ex_env [(ex_green, "./", "b"); (ex_pending, "./", "a")] = Some m /\
      m !! "c1" = Some (stamp ex_pending "./" "a")).
Proof.
  apply (green_first_loses_to_older_record ex_env ex_green ex_pending);
    (reflexivity || (vm_compute; congruence)).
Defined.

(** ** Sorting and order statistics *)

Section SortedFacts.
Context {A : Type} (lt : A -> A -> bool).

Lemma insert_sorted_perm (x : A) (l : list A) : insert_sorted lt x l ≡ₚ x :: l.
Proof.
  induction l as [|y l IH]; cbn; [done|].
  destruct (lt y x); [|done].
  rewrite IH. apply Permutation_swap.
Qed.

Lemma sorted_perm (l : list A) : sorted lt l ≡ₚ l.
Proof.
  induction l as [|x l IH]; cbn; [done|].
  fold (sorted lt l). by rewrite insert_sorted_perm, IH.
Qed.

Lemma sorted_length (l : list A) : length (sorted lt l) = length l.
Proof. by rewrite sorted_perm. Qed.
End SortedFacts.

Lemma Qltb_true (a b : Q) : Qltb a b = true <-> (a < b)%Q.
Proof.
  unfold Qltb. rewrite negb_true_iff, <- not_true_iff_false, Qle_bool_iff.
  split; [apply Qnot_le_lt | apply Qlt_not_le].
Qed.

Lemma Qltb_false (a b : Q) : Qltb a b = false <-> (b <= a)%Q.
Proof. unfold Qltb. by rewrite negb_false_iff, Qle_bool_iff. Qed.

(** *** The order of floats *)

(** No NaN among the elements. *)
Notation no_nan := (Forall (fun v : pyfloat => is_nan v = false)).
Notation all_finite := (Forall (fun v : pyfloat => is_finite v = true)).

Ltac float_order :=
  unfold float_le, fle, flt in *;
  repeat match goal with
         | a : pyfloat |- _ => destruct a
         end;
  cbn [is_nan is_finite] in *; try done;
  rewrite ?Qltb_true, ?Qltb_false, ?Qle_bool_iff in *;
  try lra.

Lemma fle_refl (a : pyfloat) : is_nan a = false -> float_le a a.
Proof. intros Ha. float_order. Qed.

Lemma fle_trans (a b c : pyfloat) : float_le a b -> float_le b c -> float_le a c.
Proof. intros H1 H2. float_order. Qed.

Lemma fle_not_nan (a b : pyfloat) :
  float_le a b -> is_nan a = false /\ is_nan b = false.
Proof. intros H. split; float_order. Qed.

Lemma flt_fle (a b : pyfloat) : flt a b = true -> float_le a b.
Proof. intros H. float_order. Qed.

Lemma flt_false_fle (a b : pyfloat) :
  is_nan a = false -> is_nan b = false -> flt a b = false -> float_le b a.
Proof. intros Ha Hb H. float_order. Qed.



Lemma all_finite_no_nan (l : list pyfloat) : all_finite l -> no_nan l.
Proof. intros H. eapply Forall_impl; [exact H|]. by intros []. Qed.



Lemma sorted_floats_perm (B : pybuiltins) (l : list pyfloat) :
  sort_ok B -> sorted_floats B l ≡ₚ l.
Proof.
  intros HB. unfold sorted_floats. destruct (existsb is_nan l); [apply HB|].
  apply sorted_perm.
Qed.




Lemma py_min_bound (rest : list pyfloat) : forall a,
  is_nan a = false -> no_nan rest ->
  float_le (py_min a rest) a /\ forall v, v ∈ rest -> float_le (py_min a rest) v.
Proof.
  unfold py_min. induction rest as [|y rest IH]; intros a Ha Hr; cbn.
  - split; [by apply fle_refl|]. intros v Hv. by apply elem_of_nil in Hv.
  - apply Forall_cons in Hr as [Hy Hr].
    set (a' := if flt y a then y else a).
    assert (Ha' : float_le a' a /\ float_le a' y /\ is_nan a' = false).
    { subst a'. destruct (flt y a) eqn:Hya.
      - split_and!; [by apply flt_fle|by apply fle_refl|done].
      - split_and!; [by apply fle_refl|by apply flt_false_fle|done]. }
    destruct Ha' as (H1 & H2 & H3). destruct (IH a' H3 Hr) as [H4 H5]. split.
    + by apply fle_trans with a'.
    + intros v Hv. apply elem_of_cons in Hv as [->|Hv]; [|by apply H5].
      by apply fle_trans with a'.
Qed.

Lemma py_max_bound (rest : list pyfloat) : forall a,
  is_nan a = false -> no_nan rest ->
  float_le a (py_max a rest) /\ forall v, v ∈ rest -> float_le v (py_max a rest).
Proof.
  unfold py_max. induction rest as [|y rest IH]; intros a Ha Hr; cbn.
  - split; [by apply fle_refl|]. intros v Hv. by apply elem_of_nil in Hv.
  - apply Forall_cons in Hr as [Hy Hr].
    set (a' := if flt a y then y else a).
    assert (Ha' : float_le a a' /\ float_le y a' /\ is_nan a' = false).
    { subst a'. destruct (flt a y) eqn:Hya.
      - split_and!; [by apply flt_fle|by apply fle_refl|done].
      - split_and!; [by apply fle_refl|by apply flt_false_fle|done]. }
    destruct Ha' as (H1 & H2 & H3). destruct (IH a' H3 Hr) as [H4 H5]. split.
    + by apply fle_trans with a'.
    + intros v Hv. apply elem_of_cons in Hv as [->|Hv]; [|by apply H5].
      by apply fle_trans with a'.
Qed.

Lemma py_min_le (x : pyfloat) (rest : list pyfloat) v :
  no_nan (x :: rest) -> v ∈ x :: rest -> float_le (py_min x rest) v.
Proof.
  intros [Hx Hr]%Forall_cons Hv. destruct (py_min_bound rest x Hx Hr) as [H1 H2].
  apply elem_of_cons in Hv as [->|Hv]; auto.
Qed.

Lemma py_max_ge (x : pyfloat) (rest : list pyfloat) v :
  no_nan (x :: rest) -> v ∈ x :: rest -> float_le v (py_max x rest).
Proof.
  intros [Hx Hr]%Forall_cons Hv. destruct (py_max_bound rest x Hx Hr) as [H1 H2].
  apply elem_of_cons in Hv as [->|Hv]; auto.
Qed.





(** *** Rounded arithmetic *)

Section Rounding.
Context (B : pybuiltins) (HB : rounding_ok B).

Lemma nearest_mono (x y : Q) : (x <= y)%Q -> float_le (nearest B x) (nearest B y).
Proof. apply HB. Qed.

Lemma nearest_not_nan (x : Q) : is_nan (nearest B x) = false.
Proof.
  assert (H : float_le (nearest B x) (nearest B x)) by (apply nearest_mono; lra).
  by apply fle_not_nan in H as [H _].
Qed.

Lemma nearest_nonneg (x : Q) : (0 <= x)%Q -> float_le (Finite 0) (nearest B x).
Proof. intros Hx. destruct HB as [H0 _]. rewrite <- H0. by apply nearest_mono. Qed.





End Rounding.

(** The exact float unit of the examples rounds as assumed. *)
Lemma ex_builtins_rounding_ok : rounding_ok ex_builtins.
Proof. split; [reflexivity|]. intros x y Hxy. by apply Qle_bool_iff. Qed.

Lemma ex_builtins_sort_ok : sort_ok ex_builtins.
Proof. by intros l. Qed.

(** *** The invariant of the numeric branch *)

Section NumericStats.
Context (B : pybuiltins) (col_type : coltype) (confidence : Q).
Context (x : pyfloat) (rest : list pyfloat).

Let p := numeric_stats B col_type confidence x rest.
Let l := x :: rest.
Let n := length l.

Lemma numeric_stats_count : (0 < n)%nat.
Proof. subst n l. cbn. lia. Qed.

Lemma numeric_stats_at (i : nat) :
  at_index (sorted_floats B l) n i = nth i (sorted_floats B l) (Finite 0).
Proof.
  unfold at_index. pose proof numeric_stats_count as Hn.
  by replace (0 <? n)%nat with true by (symmetry; by apply Nat.ltb_lt).
Qed.





Lemma numeric_stats_member_any (i : nat) :
  sort_ok B -> (i < n)%nat -> at_index (sorted_floats B l) n i ∈ l.
Proof.
  intros HB Hi. rewrite numeric_stats_at.
  rewrite <- (sorted_floats_perm B l HB) at 2. apply list_elem_of_In, nth_In.
  by rewrite (sorted_floats_perm B l HB).
Qed.


End NumericStats.

(** ** The loops of the profiler *)

Section FoldInsert.
Context {V : Type} (g : string -> V).

Lemma foldl_insert_lookup (l : list string) : forall (m0 : gmap string V) f,
  foldl (fun m k => <[k := g k]> m) m0 l !! f
  = if decide (f ∈ l) then Some (g f) else m0 !! f.
Proof.
  induction l as [|x l IH]; intros m0 f; cbn.
  - by rewrite decide_False by apply not_elem_of_nil.
  - rewrite IH. destruct (decide (f ∈ l)) as [Hin|Hnin].
    + by rewrite decide_True by (by right).
    + destruct (decide (f = x)) as [->|Hne].
      * rewrite lookup_insert_eq. by rewrite decide_True by (by left).
      * rewrite lookup_insert_ne by done.
        rewrite decide_False; [done|]. by intros [?|?]%elem_of_cons.
Qed.

Lemma NoDup_keys (l : list string) :
  NoDup ((fun k => (k, g k)) <$> remove_dups l).*1.
Proof.
  rewrite <- list_fmap_compose.
  replace ((fst ∘ (fun k => (k, g k))) <$> remove_dups l) with (remove_dups l).
  - apply NoDup_remove_dups.
  - induction (remove_dups l) as [|k ks IH]; cbn; [done|]. by rewrite <- IH.
Qed.

Lemma foldl_insert_list_to_map (l : list string) :
  foldl (fun (m : gmap string V) k => <[k := g k]> m) ∅ l
  = list_to_map ((fun k => (k, g k)) <$> remove_dups l).
Proof.
  apply map_eq. intros f. rewrite foldl_insert_lookup.
  destruct (decide (f ∈ l)) as [Hin|Hnin].
  - symmetry. apply elem_of_list_to_map_1; [apply NoDup_keys|].
    apply list_elem_of_fmap. exists f. split; [done|].
    by apply elem_of_remove_dups.
  - rewrite lookup_empty. symmetry. apply not_elem_of_list_to_map_1.
    rewrite <- list_fmap_compose. intros Hk.
    apply list_elem_of_fmap in Hk as (k & Hfk & Hk). cbn in Hfk. subst k.
    apply Hnin. by apply elem_of_remove_dups.
Qed.

Lemma foldl_insert_size (l : list string) :
  size (foldl (fun (m : gmap string V) k => <[k := g k]> m) ∅ l) = length (remove_dups l).
Proof.
  rewrite foldl_insert_list_to_map, map_size_list_to_map by apply NoDup_keys.
  by rewrite length_fmap.
Qed.

Lemma foldl_insert_to_list (l : list string) :
  map_to_list (foldl (fun (m : gmap string V) k => <[k := g k]> m) ∅ l)
  ≡ₚ (fun k => (k, g k)) <$> remove_dups l.
Proof.
  rewrite foldl_insert_list_to_map. apply map_to_list_to_map, NoDup_keys.
Qed.
End FoldInsert.

Lemma foldl_insert_pair {V W : Type} (g1 : string -> V) (g2 : string -> W)
    (l : list string) : forall (c0 : gmap string V) (m0 : gmap string W),
  foldl (fun (acc : gmap string V * gmap string W) k =>
           (<[k := g1 k]> acc.1, <[k := g2 k]> acc.2)) (c0, m0) l
  = (foldl (fun c k => <[k := g1 k]> c) c0 l,
     foldl (fun m k => <[k := g2 k]> m) m0 l).
Proof. induction l as [|x l IH]; intros c0 m0; cbn; [done|]. by rewrite IH. Qed.

Lemma sum_list_perm (l1 l2 : list nat) : l1 ≡ₚ l2 -> sum_list l1 = sum_list l2.
Proof. induction 1; cbn; lia. Qed.

Lemma stats_loop_columns (B : pybuiltins) e data column_types fieldnames field :
  (stats_loop B e data column_types fieldnames).1 !! field
  = if decide (field ∈ fieldnames)
    then Some (column_stats_of B e data column_types field).2
    else None.
Proof.
  unfold stats_loop. rewrite foldl_insert_pair. cbn [fst].
  by rewrite foldl_insert_lookup, lookup_empty.
Qed.

Lemma stats_loop_size (B : pybuiltins) e data column_types fieldnames :
  size (stats_loop B e data column_types fieldnames).1
  = length (spec_columns fieldnames).
Proof.
  unfold stats_loop. rewrite foldl_insert_pair. cbn [fst].
  apply foldl_insert_size.
Qed.

Lemma stats_loop_missing (B : pybuiltins) e data column_types fieldnames :
  sum_values (stats_loop B e data column_types fieldnames).2
  = sum_list (map (spec_missing data) (spec_columns fieldnames)).
Proof.
  unfold stats_loop, sum_values. rewrite foldl_insert_pair. cbn [snd].
  erewrite sum_list_perm;
    [|apply Permutation_map, foldl_insert_to_list].
  unfold spec_columns. generalize (remove_dups fieldnames). intros l.
  induction l as [|k l IH]; cbn; [done|]. by rewrite <- IH.
Qed.

Lemma calculate_statistics_columns (B : pybuiltins) e (data : list row)
    fieldnames column_types :
  data ≠ [] ->
  columns (calculate_statistics B e data fieldnames column_types)
  = (stats_loop B e data column_types fieldnames).1.
Proof.
  intros Hd. unfold calculate_statistics. destruct data as [|r data]; [done|].
  by destruct (stats_loop B e (r :: data) column_types fieldnames).
Qed.

Lemma calculate_statistics_empty (B : pybuiltins) e fieldnames column_types :
  columns (calculate_statistics B e [] fieldnames column_types) = ∅.
Proof. done. Qed.

Lemma calculate_statistics_lookup (B : pybuiltins) e (data : list row)
    fieldnames column_types field (c : column_stats) :
  columns (calculate_statistics B e data fieldnames column_types) !! field = Some c ->
  data ≠ [] /\ field ∈ fieldnames /\
  c = (column_stats_of B e data column_types field).2.
Proof.
  destruct data as [|r data].
  { rewrite calculate_statistics_empty, lookup_empty. done. }
  rewrite calculate_statistics_columns by done.
  rewrite stats_loop_columns. case_decide; [|done].
  intros [= <-]. done.
Qed.

Lemma calculate_statistics_quality (B : pybuiltins) e (data : list row)
    fieldnames column_types :
  data ≠ [] -> fieldnames ≠ [] ->
  quality_score (calculate_statistics B e data fieldnames column_types)
  = spec_quality data fieldnames.
Proof.
  intros Hd Hf. unfold calculate_statistics. destruct data as [|r data]; [done|].
  pose proof (stats_loop_size B e (r :: data) column_types fieldnames) as Hsize.
  pose proof (stats_loop_missing B e (r :: data) column_types fieldnames) as Hmiss.
  destruct (stats_loop B e (r :: data) column_types fieldnames) as [cols miss].
  cbn [fst snd] in Hsize, Hmiss. cbn [quality_score].
  assert (Hpos : (0 < length (spec_columns fieldnames))%nat).
  { unfold spec_columns. destruct fieldnames as [|f fs]; [done|].
    assert (f ∈ remove_dups (f :: fs)) as Hin by (apply elem_of_remove_dups; by left).
    destruct (remove_dups (f :: fs)); [by apply elem_of_nil in Hin|cbn; lia]. }
  rewrite Hsize, Hmiss.
  replace (0 <? length (spec_columns fieldnames))%nat with true
    by (symmetry; by apply Nat.ltb_lt).
  replace (0 <? length (r :: data) * length (spec_columns fieldnames))%nat with true
    by (symmetry; apply Nat.ltb_lt; cbn [length]; lia).
  done.
Qed.

(** ** Type inference *)

Lemma take_sample_size {A} (data : list A) :
  take (Nat.min 100 (length data)) data = take 100 data.
Proof.
  destruct (Nat.le_ge_cases 100 (length data)) as [H|H].
  - by rewrite Nat.min_l.
  - rewrite Nat.min_r by done. by rewrite !take_ge by lia.
Qed.

(** C5, as the code has it: the sample of a column is made of the non-empty
    values found in the first 100 rows, in row order.  It is a prefix of the
    column's non-empty values and holds at most 100 of them; a non-empty
    value in a later row is never sampled. *)
Theorem sample_values_first_100_rows (data : list row) (field : string) :
  sample_values data field = non_missing (take 100 data) field /\
  sample_values data field `prefix_of` non_missing data field /\
  length (sample_values data field) <= 100.
Proof.
  assert (Hs : sample_values data field = non_missing (take 100 data) field).
  { unfold sample_values, non_missing, column. by rewrite take_sample_size. }
  rewrite Hs. split_and!; [done| |].
  - exists (non_missing (drop 100 data) field).
    unfold non_missing, column.
    by rewrite <- List.filter_app, <- List.map_app, take_drop.
  - unfold non_missing, column.
    etrans; [apply filter_length_le|].
    rewrite length_map, length_take. lia.
Qed.

(** C5, as the claim states it, fails on a table of 101 rows whose first
    row is empty for the column: the column has 100 non-empty values, the
    sample has 99 of them. *)
Lemma sample_values_not_first_100_non_empty :
  length (non_missing ex_late_values "a") = 100 /\
  length (sample_values ex_late_values "a") = 99 /\
  sample_values ex_late_values "a" ≠ spec_sample ex_late_values "a".
Proof.
  split_and!; [by vm_compute | by vm_compute |].
  intros H. apply (f_equal length) in H. vm_compute in H. discriminate.
Qed.

(** C7: Scenario 1.  Whatever else [float] does, if it accepts ["1"] and
    ["2"] and rejects ["x"], column [a] is [mixed] with confidence 0.5 and
    exactly one warning is emitted. *)
Theorem scenario1_mixed (B : pybuiltins) (e : pyenv) :
  float B "1" = Some (Finite 1) -> float B "2" = Some (Finite 2) ->
  float B "x" = None ->
  detect_column_types B e ex_scenario1 ["a"]
  = ({[ "a" := ColumnType mixed (5 # 10) 3 ]},
     ["Column 'a' has mixed types"]).
Proof.
  intros H1 H2 Hx.
  assert (Hf : detect_field B e ex_scenario1 "a"
               = (ColumnType mixed (5 # 10) 3, ["Column 'a' has mixed types"])).
  { unfold detect_field.
    replace (sample_values ex_scenario1 "a") with ["1"; "2"; "x"] by (by vm_compute).
    cbn [List.filter]. unfold is_numeric, is_integer. rewrite H1, H2, Hx.
    by vm_compute. }
  unfold detect_column_types, ex_scenario1, detect_loop. cbn [foldl fst snd].
  fold ex_scenario1. rewrite Hf. done.
Qed.

Lemma scenario1_mixed_witness :
  detect_column_types ex_builtins ex_env ex_scenario1 ["a"]
  = ({[ "a" := ColumnType mixed (5 # 10) 3 ]},
     ["Column 'a' has mixed types"]).
Proof. apply (scenario1_mixed ex_builtins ex_env); reflexivity. Defined.

(** ** Statistical profiling *)




(** The other way to a NaN: when a quarter of the values or more are the
    same infinity, both quartiles are that infinity and their difference is
    NaN.  (The infinities come after the rows that type inference
    samples.) *)
Lemma numeric_profile_of_infinities :
  exists p,
    columns (calculate_statistics ex_builtins ex_env ex_late_inf ["a"]
               (detect_column_types ex_builtins ex_env ex_late_inf ["a"]).1) !! "a"
      = Some (Numeric p) /\
    np_type p = integer /\ np_count p = 400 /\
    np_q1 p = PosInf /\ np_q3 p = PosInf /\ np_iqr p = NaN.
Proof. eexists. split; [vm_compute; reflexivity|]. by split_and!. Qed.

Lemma of_nat_pos (n : nat) : 0 < n -> (0 < of_nat n)%Q.
Proof.
  intros Hn. unfold of_nat. change 0%Q with (inject_Z 0).
  rewrite <- Zlt_Qlt. lia.
Qed.




(** ** Validation *)

Lemma validate_data_verdict (r : row) (data : list row) (st : stats)
    (cfg : config) (issues : list issue) :
  (validate_data (r :: data) st cfg issues).1.1
  = negb (Qltb (of_nat (length (r :: data)))
               (threshold cfg "data_quality" "min_sample_size" 100))
    && Qle_bool (threshold cfg "data_quality" "min_completeness" (95 # 100))
                (quality_score st).
Proof.
  unfold validate_data.
  destruct (Qltb _ _); destruct (Qle_bool _ _);
    destruct (0 <? _)%nat; try destruct (Qle_bool _ _); reflexivity.
Qed.




(** C10: on an empty row sequence the validator returns [False] and no
    message, and leaves [stats] as it was. *)
Theorem validate_data_no_rows (st : stats) (cfg : config) (issues : list issue) :
  validate_data [] st cfg issues = (false, [], st).
Proof. reflexivity. Qed.

(** ** Determinism *)

Lemma detect_field_env (B : pybuiltins) (e1 e2 : pyenv) data field :
  pyenv_ok e1 -> pyenv_ok e2 ->
  detect_field B e1 data field = detect_field B e2 data field.
Proof.
  intros H1 H2. unfold detect_field.
  by rewrite (length_pyset e1), (length_pyset e2).
Qed.

Lemma column_stats_of_env (B : pybuiltins) (e1 e2 : pyenv) data column_types field :
  pyenv_ok e1 -> pyenv_ok e2 ->
  column_stats_of B e1 data column_types field
  = column_stats_of B e2 data column_types field.
Proof.
  intros H1 H2. unfold column_stats_of, categorical_stats.
  by rewrite (length_pyset e1), (length_pyset e2).
Qed.

Lemma foldl_ext_eq {A X} (f g : A -> X -> A) (l : list X) :
  (forall a x, f a x = g a x) -> forall a, foldl f a l = foldl g a l.
Proof.
  intros Hfg. induction l as [|x l IH]; intros a; cbn; [done|].
  by rewrite Hfg, IH.
Qed.

(** C9: the results of a run do not depend on the interpreter environment:
    two runs on the same table and configuration, under any two hash seeds,
    yield the same type descriptors, warnings, profiles, verdict and
    messages. *)
Theorem run_deterministic (B : pybuiltins) (e1 e2 : pyenv)
    (data : list row) (fieldnames : list string) (cfg : config) :
  pyenv_ok e1 -> pyenv_ok e2 ->
  run B e1 data fieldnames cfg = run B e2 data fieldnames cfg.
Proof.
  intros H1 H2.
  assert (Hd : detect_column_types B e1 data fieldnames
               = detect_column_types B e2 data fieldnames).
  { unfold detect_column_types, detect_loop. destruct data; [done|].
    apply foldl_ext_eq. intros acc f. by rewrite (detect_field_env B e1 e2). }
  assert (Hs : forall ct, calculate_statistics B e1 data fieldnames ct
                          = calculate_statistics B e2 data fieldnames ct).
  { intros ct. unfold calculate_statistics, stats_loop. destruct data; [done|].
    erewrite foldl_ext_eq; [reflexivity|].
    intros acc f. by rewrite (column_stats_of_env B e1 e2). }
  unfold run. rewrite Hd.
  destruct (detect_column_types B e2 data fieldnames) as [ct w].
  by rewrite Hs.
Qed.

Lemma ex_env'_ok : pyenv_ok ex_env'.
Proof. by intros l _. Qed.

Lemma run_deterministic_witness :
  run ex_builtins ex_env ex_table ["n"; "k"] ex_config
  = run ex_builtins ex_env' ex_table ["n"; "k"] ex_config.
Proof.
  apply (run_deterministic ex_builtins ex_env ex_env' ex_table ["n"; "k"] ex_config).
  - exact ex_env_ok.
  - exact ex_env'_ok.
Defined.

(** * Further properties *)

Import MergeViews IntakeViews IntakeShell MoreExamples.

(** ** Lexicographic order on timestamps *)

Lemma ltb_lt (a b : string) :
  String.ltb a b = true <-> OrderedTypeEx.String_as_OT.lt a b.
Proof.
  rewrite <- OrderedTypeEx.String_as_OT.cmp_lt.
  unfold String.ltb, OrderedTypeEx.String_as_OT.cmp.
  destruct (String.compare a b); split; congruence.
Qed.

Lemma ltb_trans (a b c : string) :
  String.ltb a b = true -> String.ltb b c = true -> String.ltb a c = true.
Proof.
  rewrite !ltb_lt. apply OrderedTypeEx.String_as_OT.lt_trans.
Qed.

Lemma ltb_irrefl (a : string) : String.ltb a a = false.
Proof.
  apply not_true_is_false. rewrite ltb_lt. intros H.
  by apply OrderedTypeEx.String_as_OT.lt_not_eq in H.
Qed.

Lemma ltb_false_cases (a b : string) :
  String.ltb a b = false -> a = b \/ String.ltb b a = true.
Proof.
  unfold String.ltb. rewrite (String.compare_antisym b a).
  destruct (String.compare a b) eqn:Hc; cbn; intros H; try done.
  - left. by apply String.compare_eq_iff.
  - by right.
Qed.

(** [a < b <= c] gives [a < c]. *)
Lemma ltb_le_trans (a b c : string) :
  String.ltb a b = true -> String.ltb c b = false -> String.ltb a c = true.
Proof.
  intros Hab Hcb. destruct (ltb_false_cases _ _ Hcb) as [->|Hbc]; [done|].
  by apply ltb_trans with b.
Qed.

(** [a < b <= c] gives [not (c < a)]. *)
Lemma ltb_le_asym (a b c : string) :
  String.ltb a b = true -> String.ltb c b = false -> String.ltb c a = false.
Proof.
  intros Hab Hcb. apply not_true_is_false. intros Hca.
  pose proof (ltb_trans _ _ _ Hca Hab) as H. congruence.
Qed.

(** ** What the fold of the merge rules keeps *)

Lemma retag_lookup (w : capsule) (l : list string) (k : string) :
  k ≠ "tags" -> (<["tags" := VList l]> w) !! k = w !! k.
Proof. intros. by rewrite lookup_insert_ne. Qed.

Lemma retag_status (w : capsule) l : spec_status (<["tags" := VList l]> w) = spec_status w.
Proof. unfold spec_status. by rewrite retag_lookup. Qed.

Lemma retag_timestamp (w : capsule) l :
  spec_timestamp (<["tags" := VList l]> w) = spec_timestamp w.
Proof. unfold spec_timestamp. by rewrite retag_lookup. Qed.

Lemma retag_tags (w : capsule) l : spec_tags (<["tags" := VList l]> w) = l.
Proof. unfold spec_tags. by rewrite lookup_insert_eq. Qed.

Lemma record_of_status (x : entry) : spec_status (record_of x) = spec_status x.1.1.
Proof. unfold spec_status, record_of. by rewrite stamp_lookup. Qed.

Lemma record_of_timestamp (x : entry) :
  spec_timestamp (record_of x) = spec_timestamp x.1.1.
Proof. unfold spec_timestamp, record_of. by rewrite stamp_lookup. Qed.

Lemma record_of_tags (x : entry) : spec_tags (record_of x) = spec_tags x.1.1.
Proof. unfold spec_tags, record_of. by rewrite stamp_lookup. Qed.

(** The two outcomes of a resolution. *)
Lemma spec_resolve_cases e (w c : capsule) :
  (spec_resolve e w c = c /\
   ((spec_status c = "green" /\ spec_status w ≠ "green") \/
    String.ltb (spec_timestamp c) (spec_timestamp w) = true))
  \/
  (spec_resolve e w c
     = <["tags" := VList (pyset_union e (spec_tags w) (spec_tags c))]> w /\
   (spec_status c = "green" -> spec_status w = "green") /\
   String.ltb (spec_timestamp c) (spec_timestamp w) = false).
Proof.
  unfold spec_resolve.
  destruct (bool_decide (spec_status c = "green")) eqn:Hc;
    destruct (bool_decide (spec_status w ≠ "green")) eqn:Hw; cbn;
    destruct (String.ltb (spec_timestamp c) (spec_timestamp w)) eqn:Hlt;
    try (apply bool_decide_eq_true in Hc); try (apply bool_decide_eq_true in Hw);
    try (apply bool_decide_eq_false in Hc); try (apply bool_decide_eq_false in Hw);
    try (left; split; [done|]; by auto);
    right; split_and!; try done.
  - intros _. by destruct (decide (spec_status w = "green")).
Qed.

(** The records contributed to an identifier. *)
Lemma elem_of_records (l : list entry) cid (r : capsule) :
  r ∈ map record_of (List.filter (has_id cid) l) <->
  exists x, x ∈ l /\ has_id cid x = true /\ r = record_of x.
Proof.
  rewrite list_elem_of_In, in_map_iff. split.
  - intros (x & <- & Hx). apply filter_In in Hx as [Hx Hid].
    exists x. by rewrite list_elem_of_In.
  - intros (x & Hx & Hid & ->). exists x. split; [done|].
    apply filter_In. by rewrite <- list_elem_of_In.
Qed.

Lemma foldl_resolve_origin e (rest : list capsule) : forall (w r0 : capsule),
  same_core w r0 ->
  exists r, (r = r0 \/ r ∈ rest) /\ same_core (foldl (spec_resolve e) w rest) r.
Proof.
  induction rest as [|c rest IH]; intros w r0 Hw; cbn.
  - exists r0. by split; [left|].
  - destruct (spec_resolve_cases e w c) as [[-> _]|[-> _]].
    + destruct (IH c c) as (r & [->|Hr] & Hcore); [done| |].
      * exists c. split; [right; by left|done].
      * exists r. split; [right; by right|done].
    + destruct (IH (<["tags" := VList (pyset_union e (spec_tags w) (spec_tags c))]> w) r0)
        as (r & [->|Hr] & Hcore).
      * intros k Hk. rewrite retag_lookup by done. by apply Hw.
      * exists r0. by split; [left|].
      * exists r. split; [right; by right|done].
Qed.

Lemma foldl_resolve_tags e (rest : list capsule) : pyenv_ok e -> forall (w : capsule) t,
  t ∈ spec_tags (foldl (spec_resolve e) w rest) ->
  t ∈ spec_tags w \/ exists c, c ∈ rest /\ t ∈ spec_tags c.
Proof.
  intros He. induction rest as [|c rest IH]; intros w t Ht; cbn in Ht; [by left|].
  apply IH in Ht as [Ht|(c' & Hc' & Ht)].
  - destruct (spec_resolve_cases e w c) as [[Hr _]|[Hr _]]; rewrite Hr in Ht.
    + right. exists c. split; [by left|done].
    + rewrite retag_tags in Ht. unfold pyset_union in Ht.
      apply elem_of_pyset in Ht; [|done].
      apply elem_of_app in Ht as [Ht|Ht]; [by left|].
      right. exists c. split; [by left|done].
  - right. exists c'. split; [by right|done].
Qed.

(** Once the winner is green and not later than [ts], it stays so as long
    as no non-green record is earlier than [ts]. *)
Lemma foldl_resolve_green e (ts : string) (rest : list capsule) : forall w : capsule,
  spec_status w = "green" -> String.ltb ts (spec_timestamp w) = false ->
  (forall c, c ∈ rest -> spec_status c ≠ "green" ->
             String.ltb (spec_timestamp c) ts = false) ->
  spec_status (foldl (spec_resolve e) w rest) = "green" /\
  String.ltb ts (spec_timestamp (foldl (spec_resolve e) w rest)) = false.
Proof.
  induction rest as [|c rest IH]; intros w Hg Hts Hrest; cbn; [done|].
  assert (Hrest' : forall c', c' ∈ rest -> spec_status c' ≠ "green" ->
                              String.ltb (spec_timestamp c') ts = false).
  { intros c' Hc'. apply Hrest. by right. }
  destruct (spec_resolve_cases e w c) as [[-> Hwhy]|[-> _]].
  - destruct Hwhy as [[_ Hw]|Hlt]; [done|].
    destruct (decide (spec_status c = "green")) as [Hc|Hc].
    + apply IH; [done| |done]. by apply ltb_le_asym with (spec_timestamp w).
    + pose proof (Hrest c ltac:(by left) Hc) as Hcts.
      pose proof (ltb_le_trans _ _ _ Hlt Hts) as H. congruence.
  - apply IH; [by rewrite retag_status|by rewrite retag_timestamp|done].
Qed.

Lemma foldl_resolve_green_member e (g : capsule) (rest : list capsule) :
  forall w : capsule,
  g ∈ rest -> spec_status g = "green" ->
  (forall c, c ∈ rest -> spec_status c ≠ "green" ->
             String.ltb (spec_timestamp c) (spec_timestamp g) = false) ->
  spec_status (foldl (spec_resolve e) w rest) = "green".
Proof.
  induction rest as [|c rest IH]; intros w Hin Hg Hrest; [by apply elem_of_nil in Hin|].
  assert (Hrest' : forall c', c' ∈ rest -> spec_status c' ≠ "green" ->
            String.ltb (spec_timestamp c') (spec_timestamp g) = false).
  { intros c' Hc'. apply Hrest. by right. }
  cbn. apply elem_of_cons in Hin as [<-|Hin]; [|by apply IH].
  destruct (spec_resolve_cases e w g) as [[-> _]|[-> [Hw Hlt]]].
  - by apply (foldl_resolve_green e (spec_timestamp g)); [|apply ltb_irrefl|].
  - apply (foldl_resolve_green e (spec_timestamp g)); [| |done].
    + rewrite retag_status. by apply Hw.
    + by rewrite retag_timestamp.
Qed.

(** With no green rule in play, the winner is never later than a record
    already folded. *)
Lemma foldl_resolve_earliest e (b : bool) (rest : list capsule) : forall w : capsule,
  bool_decide (spec_status w = "green") = b ->
  (forall c, c ∈ rest -> bool_decide (spec_status c = "green") = b) ->
  let w' := foldl (spec_resolve e) w rest in
  String.ltb (spec_timestamp w) (spec_timestamp w') = false /\
  (forall c, c ∈ rest -> String.ltb (spec_timestamp c) (spec_timestamp w') = false) /\
  (exists r, r ∈ w :: rest /\ spec_timestamp w' = spec_timestamp r).
Proof.
  induction rest as [|c rest IH]; intros w Hw Hrest; cbn.
  - split_and!; [apply ltb_irrefl| by intros c Hc%elem_of_nil |].
    exists w. by split; [left|].
  - assert (Hc : bool_decide (spec_status c = "green") = b) by (apply Hrest; by left).
    assert (Hrest' : forall c', c' ∈ rest -> bool_decide (spec_status c' = "green") = b).
    { intros c' Hc'. apply Hrest. by right. }
    destruct (spec_resolve_cases e w c) as [[-> Hwhy]|[-> [_ Hlt]]].
    + destruct Hwhy as [[Hcg Hwg]|Hlt].
      { rewrite bool_decide_eq_true_2 in Hc by done.
        rewrite bool_decide_eq_false_2 in Hw by done. congruence. }
      destruct (IH c Hc Hrest') as (H1 & H2 & r & Hr & Heq). split_and!.
      * apply not_true_is_false. intros Hww.
        destruct (ltb_false_cases _ _ H1) as [Heq'|Hlt'].
        -- rewrite <- Heq' in Hww. pose proof (ltb_trans _ _ _ Hww Hlt) as H.
           by rewrite ltb_irrefl in H.
        -- pose proof (ltb_trans _ _ _ Hww (ltb_trans _ _ _ Hlt' Hlt)) as H.
           by rewrite ltb_irrefl in H.
      * intros c' [->|Hc']%elem_of_cons; [done|by apply H2].
      * exists r. split; [by right|done].
    + destruct (IH (<["tags" := VList (pyset_union e (spec_tags w) (spec_tags c))]> w))
        as (H1 & H2 & r & Hr & Heq); [by rewrite retag_status|done|].
      rewrite retag_timestamp in H1. split_and!.
      * done.
      * intros c' [->|Hc']%elem_of_cons; [|by apply H2].
        apply not_true_is_false. intros Hcw.
        destruct (ltb_false_cases _ _ H1) as [Heq'|Hlt'].
        -- rewrite <- Heq' in Hcw. congruence.
        -- pose proof (ltb_trans _ _ _ Hcw Hlt') as H. congruence.
      * apply elem_of_cons in Hr as [->|Hr].
        -- exists w. split; [by left|]. by rewrite Heq, retag_timestamp.
        -- exists r. split; [right; by right|done].
Qed.

(** ** The master index *)

Lemma has_id_carries cid (x : entry) : has_id cid x = true <-> carries cid x.
Proof. unfold has_id, carries. apply bool_decide_eq_true. Qed.

Lemma spec_index_is_Some e (l : list entry) cid :
  is_Some (spec_index e l cid) <-> exists x, x ∈ l /\ carries cid x.
Proof.
  unfold spec_index. split.
  - intros [w Hw].
    destruct (List.filter (has_id cid) l) as [|x xs] eqn:Hf; [done|].
    exists x. rewrite list_elem_of_In, <- has_id_carries.
    apply (filter_In (has_id cid)). rewrite Hf. by left.
  - intros (x & Hx & Hid).
    assert (Hin : In x (List.filter (has_id cid) l)).
    { apply filter_In. by rewrite <- list_elem_of_In, has_id_carries. }
    destruct (List.filter (has_id cid) l); [done|]. by eexists.
Qed.

(** X1: the keys of the master index are exactly the identifiers the
    admitted records carry. *)
Theorem master_index_keys e (l : list entry) :
  all_admitted l ->
  exists m : gmap string capsule,
    merge_capsules e l = Some m /\
    forall cid, is_Some (m !! cid) <-> exists x, x ∈ l /\ carries cid x.
Proof.
  intros Hl. destruct (merge_capsules_spec e l Hl) as (m & Hm & Hspec).
  exists m. split; [done|]. intros cid. rewrite Hspec. apply spec_index_is_Some.
Qed.

Lemma master_index_keys_witness :
  exists m : gmap string capsule,
    merge_capsules ex_env ex_entries = Some m /\
    forall cid, is_Some (m !! cid) <-> exists x, x ∈ ex_entries /\ carries cid x.
Proof. apply (master_index_keys ex_env ex_entries). repeat constructor. Defined.

Lemma spec_index_origin e (l : list entry) cid (w : capsule) :
  spec_index e l cid = Some w ->
  exists x, x ∈ l /\ carries cid x /\ same_core w (record_of x).
Proof.
  unfold spec_index, spec_winner.
  destruct (map record_of (List.filter (has_id cid) l)) as [|first rest] eqn:HL; [done|].
  intros [= <-].
  destruct (foldl_resolve_origin e rest first first) as (r & Hr & Hcore); [done|].
  assert (Hin : r ∈ map record_of (List.filter (has_id cid) l)).
  { rewrite HL. destruct Hr as [->|Hr]; [by left|by right]. }
  apply elem_of_records in Hin as (x & Hx & Hid & ->).
  exists x. by rewrite <- has_id_carries.
Qed.

(** X2: every entry of the master index is one of the admitted records of
    its identifier, with that record's source, in every field but [tags]:
    its [capsule_id] is its key, and [source_repo] and [manifest_path] are
    those of the record that won. *)
Theorem index_entry_is_an_input_record e (l : list entry) :
  all_admitted l ->
  exists m : gmap string capsule,
    merge_capsules e l = Some m /\
    forall cid w, m !! cid = Some w ->
      exists x, x ∈ l /\ carries cid x /\
                same_core w (record_of x) /\
                w !! "capsule_id" = Some (VStr cid) /\
                w !! "source_repo" = Some (VStr x.1.2) /\
                w !! "manifest_path" = Some (VStr x.2).
Proof.
  intros Hl. destruct (merge_capsules_spec e l Hl) as (m & Hm & Hspec).
  exists m. split; [done|]. intros cid w Hw. rewrite Hspec in Hw.
  apply spec_index_origin in Hw as (x & Hx & Hid & Hcore).
  exists x. split_and!; try done.
  - rewrite Hcore by done. unfold record_of. by rewrite stamp_lookup.
  - rewrite Hcore by done. unfold record_of, stamp.
    by rewrite lookup_insert_ne, lookup_insert_eq.
  - rewrite Hcore by done. unfold record_of, stamp. by rewrite lookup_insert_eq.
Qed.

Lemma index_entry_is_an_input_record_witness :
  exists m : gmap string capsule,
    merge_capsules ex_env ex_entries = Some m /\
    forall cid w, m !! cid = Some w ->
      exists x, x ∈ ex_entries /\ carries cid x /\
                same_core w (record_of x) /\
                w !! "capsule_id" = Some (VStr cid) /\
                w !! "source_repo" = Some (VStr x.1.2) /\
                w !! "manifest_path" = Some (VStr x.2).
Proof. apply (index_entry_is_an_input_record ex_env ex_entries). repeat constructor. Defined.

(** X3: the merge invents no tag: every tag of an index entry is a tag of
    some admitted record with the same identifier. *)
Theorem index_tags_come_from_input e (l : list entry) :
  pyenv_ok e -> all_admitted l ->
  exists m : gmap string capsule,
    merge_capsules e l = Some m /\
    forall cid w t, m !! cid = Some w -> t ∈ spec_tags w ->
      exists x, x ∈ l /\ carries cid x /\ t ∈ spec_tags x.1.1.
Proof.
  intros He Hl. destruct (merge_capsules_spec e l Hl) as (m & Hm & Hspec).
  exists m. split; [done|]. intros cid w t Hw Ht. rewrite Hspec in Hw.
  unfold spec_index, spec_winner in Hw.
  destruct (map record_of (List.filter (has_id cid) l)) as [|first rest] eqn:HL; [done|].
  injection Hw as <-.
  assert (Hr : exists r, r ∈ first :: rest /\ t ∈ spec_tags r).
  { apply (foldl_resolve_tags e rest He) in Ht as [Ht|(c & Hc & Ht)].
    - exists first. by split; [left|].
    - exists c. by split; [right|]. }
  destruct Hr as (r & Hr & Htr). rewrite <- HL in Hr.
  apply elem_of_records in Hr as (x & Hx & Hid & ->).
  exists x. rewrite <- has_id_carries, <- record_of_tags. done.
Qed.

Lemma index_tags_come_from_input_witness :
  exists m : gmap string capsule,
    merge_capsules ex_env ex_entries = Some m /\
    forall cid w t, m !! cid = Some w -> t ∈ spec_tags w ->
      exists x, x ∈ ex_entries /\ carries cid x /\ t ∈ spec_tags x.1.1.
Proof.
  apply (index_tags_come_from_input ex_env ex_entries).
  - exact ex_env_ok.
  - repeat constructor.
Defined.

Lemma all_admitted_perm (l l' : list entry) :
  l' ≡ₚ l -> all_admitted l -> all_admitted l'.
Proof. unfold all_admitted. by intros ->. Qed.

Lemma spec_index_green e (l : list entry) cid (g : entry) :
  g ∈ l -> carries cid g -> spec_status g.1.1 = "green" ->
  (forall x, x ∈ l -> carries cid x -> spec_status x.1.1 ≠ "green" ->
             String.ltb (spec_timestamp x.1.1) (spec_timestamp g.1.1) = false) ->
  exists w, spec_index e l cid = Some w /\ spec_status w = "green".
Proof.
  intros Hg Hid Hgreen Hothers. unfold spec_index, spec_winner.
  assert (Hin : record_of g ∈ map record_of (List.filter (has_id cid) l)).
  { apply elem_of_records. exists g. by rewrite has_id_carries. }
  assert (Hrec : forall c, c ∈ map record_of (List.filter (has_id cid) l) ->
            spec_status c ≠ "green" ->
            String.ltb (spec_timestamp c) (spec_timestamp (record_of g)) = false).
  { intros c (x & Hx & Hxid & ->)%elem_of_records.
    rewrite record_of_status, !record_of_timestamp.
    apply Hothers; [done|]. by apply has_id_carries. }
  destruct (map record_of (List.filter (has_id cid) l)) as [|first rest];
    [by apply elem_of_nil in Hin|].
  eexists. split; [done|].
  apply elem_of_cons in Hin as [<-|Hin].
  - apply (foldl_resolve_green e (spec_timestamp (record_of g))).
    + by rewrite record_of_status.
    + apply ltb_irrefl.
    + intros c Hc. apply Hrec. by right.
  - apply (foldl_resolve_green_member e (record_of g)); [done| |].
    + by rewrite record_of_status.
    + intros c Hc. apply Hrec. by right.
Qed.

(** X4: a green record that no non-green record of its identifier precedes
    in time survives as a green winner in whatever order the records are
    folded. *)
Theorem earliest_green_wins_in_any_order e (l : list entry) cid (g : entry) :
  all_admitted l ->
  g ∈ l -> carries cid g -> spec_status g.1.1 = "green" ->
  (forall x, x ∈ l -> carries cid x -> spec_status x.1.1 ≠ "green" ->
             String.ltb (spec_timestamp x.1.1) (spec_timestamp g.1.1) = false) ->
  forall l', l' ≡ₚ l ->
  exists (m : gmap string capsule) (w : capsule),
    merge_capsules e l' = Some m /\ m !! cid = Some w /\ spec_status w = "green".
Proof.
  intros Hl Hg Hid Hgreen Hothers l' Hperm.
  destruct (merge_capsules_spec e l' (all_admitted_perm _ _ Hperm Hl)) as (m & Hm & Hspec).
  destruct (spec_index_green e l' cid g) as (w & Hw & Hst); try done.
  - by rewrite Hperm.
  - intros x Hx. apply Hothers. by rewrite <- Hperm.
  - exists m, w. by rewrite Hspec.
Qed.

Lemma earliest_green_wins_in_any_order_witness :
  exists (m : gmap string capsule) (w : capsule),
    merge_capsules ex_env [(ex_early_green, "./", "b"); (ex_pending, "./", "a")] = Some m /\
    m !! "c1" = Some w /\ spec_status w = "green".
Proof.
  apply (earliest_green_wins_in_any_order ex_env
           [(ex_pending, "./", "a"); (ex_early_green, "./", "b")] "c1"
           (ex_early_green, "./", "b")).
  - repeat constructor.
  - set_solver.
  - reflexivity.
  - reflexivity.
  - intros x Hx _ _. apply list_elem_of_In in Hx. cbn in Hx.
    destruct Hx as [<-|[<-|[]]]; reflexivity.
  - apply Permutation_swap.
Defined.

Lemma spec_index_earliest e (l : list entry) cid (w : capsule) :
  (forall x y, x ∈ l -> y ∈ l -> carries cid x -> carries cid y ->
               (spec_status x.1.1 = "green" <-> spec_status y.1.1 = "green")) ->
  spec_index e l cid = Some w ->
  (forall x, x ∈ l -> carries cid x ->
             String.ltb (spec_timestamp x.1.1) (spec_timestamp w) = false) /\
  (exists x, x ∈ l /\ carries cid x /\ spec_timestamp w = spec_timestamp x.1.1).
Proof.
  intros Hsame. unfold spec_index, spec_winner.
  pose proof (elem_of_records l cid) as Hrec.
  destruct (map record_of (List.filter (has_id cid) l)) as [|first rest]; [done|].
  intros [= <-].
  destruct (proj1 (Hrec first) ltac:(by left)) as (x0 & Hx0 & Hid0 & Hfirst).
  destruct (foldl_resolve_earliest e (bool_decide (spec_status first = "green")) rest first)
    as (H1 & H2 & r & Hr & Heq); [done| |].
  { intros c Hc. destruct (proj1 (Hrec c) ltac:(by right)) as (x & Hx & Hid & ->).
    subst first. rewrite !record_of_status. apply bool_decide_ext.
    apply Hsame; try done; by apply has_id_carries. }
  split.
  - intros x Hx Hid. rewrite <- record_of_timestamp.
    assert (Hin : record_of x ∈ first :: rest).
    { apply Hrec. exists x. by rewrite has_id_carries. }
    apply elem_of_cons in Hin as [->|Hin]; [done|by apply H2].
  - destruct (proj1 (Hrec r) Hr) as (x & Hx & Hid & ->).
    exists x. rewrite <- record_of_timestamp, <- has_id_carries. done.
Qed.

(** X5: when the records of an identifier are all green or all non-green,
    the winner carries the earliest timestamp among them, and that
    timestamp is the same in whatever order the records are folded. *)
Theorem earliest_timestamp_wins e (l : list entry) cid :
  all_admitted l ->
  (forall x y, x ∈ l -> y ∈ l -> carries cid x -> carries cid y ->
               (spec_status x.1.1 = "green" <-> spec_status y.1.1 = "green")) ->
  forall l', l' ≡ₚ l ->
  exists m m' : gmap string capsule,
    merge_capsules e l = Some m /\ merge_capsules e l' = Some m' /\
    forall w, m !! cid = Some w ->
      (forall x, x ∈ l -> carries cid x ->
                 String.ltb (spec_timestamp x.1.1) (spec_timestamp w) = false) /\
      (exists x, x ∈ l /\ carries cid x /\ spec_timestamp w = spec_timestamp x.1.1) /\
      (exists w', m' !! cid = Some w' /\ spec_timestamp w' = spec_timestamp w).
Proof.
  intros Hl Hsame l' Hperm.
  destruct (merge_capsules_spec e l Hl) as (m & Hm & Hspec).
  destruct (merge_capsules_spec e l' (all_admitted_perm _ _ Hperm Hl)) as (m' & Hm' & Hspec').
  exists m, m'. split_and!; [done|done|]. intros w Hw. rewrite Hspec in Hw.
  destruct (spec_index_earliest e l cid w Hsame Hw) as (Hmin & x & Hx & Hid & Hts).
  split_and!; [done|by exists x|].
  assert (Hsome : is_Some (spec_index e l' cid)).
  { apply spec_index_is_Some. exists x. by rewrite Hperm. }
  destruct Hsome as [w' Hw'].
  assert (Hsame' : forall x y, x ∈ l' -> y ∈ l' -> carries cid x -> carries cid y ->
            (spec_status x.1.1 = "green" <-> spec_status y.1.1 = "green")).
  { intros a b Ha Hb. apply Hsame; by rewrite <- Hperm. }
  destruct (spec_index_earliest e l' cid w' Hsame' Hw') as (Hmin' & x' & Hx' & Hid' & Hts').
  exists w'. split; [by rewrite Hspec'|].
  pose proof (Hmin x' ltac:(by rewrite <- Hperm) Hid') as Ha. rewrite <- Hts' in Ha.
  pose proof (Hmin' x ltac:(by rewrite Hperm) Hid) as Hb. rewrite <- Hts in Hb.
  destruct (ltb_false_cases _ _ Ha) as [Heq|Hlt]; [done|congruence].
Qed.

Lemma earliest_timestamp_wins_witness :
  exists m m' : gmap string capsule,
    merge_capsules ex_env (take 2 ex_entries) = Some m /\
    merge_capsules ex_env (reverse (take 2 ex_entries)) = Some m' /\
    forall w, m !! "c1" = Some w ->
      (forall x, x ∈ take 2 ex_entries -> carries "c1" x ->
                 String.ltb (spec_timestamp x.1.1) (spec_timestamp w) = false) /\
      (exists x, x ∈ take 2 ex_entries /\ carries "c1" x /\
                 spec_timestamp w = spec_timestamp x.1.1) /\
      (exists w', m' !! "c1" = Some w' /\ spec_timestamp w' = spec_timestamp w).
Proof.
  apply (earliest_timestamp_wins ex_env (take 2 ex_entries) "c1").
  - repeat constructor.
  - intros x y Hx Hy _ _. apply list_elem_of_In in Hx, Hy. cbn in Hx, Hy.
    destruct Hx as [<-|[<-|[]]], Hy as [<-|[<-|[]]]; by vm_compute.
  - apply reverse_Permutation.
Defined.

(** ** merge_capsules without the admission filter *)

Lemma merge_loop_app e (l1 l2 : list entry) : forall mi : gmap string capsule,
  merge_loop e mi (l1 ++ l2) = merge_loop e mi l1 ≫= fun m => merge_loop e m l2.
Proof.
  induction l1 as [|x l1 IH]; intros mi; cbn; [done|].
  destruct (merge_step e mi x) as [mi'|]; cbn; [apply IH|done].
Qed.

(** X6: [merge_capsules] itself checks no field.  On its own, whatever
    merged so far: a record without [capsule_id] raises; a record whose
    identifier is new enters the index as it is, whatever else it lacks; a
    record without [status] whose identifier is already in the index
    raises. *)
Theorem merge_capsules_unfiltered e (l1 l2 : list entry) (m1 : gmap string capsule)
    (c : capsule) (repo path cid : string) :
  merge_capsules e l1 = Some m1 ->
  (c !! "capsule_id" = None ->
     merge_capsules e (l1 ++ (c, repo, path) :: l2) = None) /\
  (c !! "capsule_id" = Some (VStr cid) -> m1 !! cid = None ->
     merge_capsules e (l1 ++ [(c, repo, path)])
     = Some (<[cid := stamp c repo path]> m1)) /\
  (c !! "capsule_id" = Some (VStr cid) -> is_Some (m1 !! cid) ->
     c !! "status" = None ->
     merge_capsules e (l1 ++ (c, repo, path) :: l2) = None).
Proof.
  intros Hm1. unfold merge_capsules in *. rewrite !merge_loop_app, Hm1.
  cbn -[merge_step]. split_and!.
  - intros Hid. unfold merge_step. by rewrite Hid.
  - intros Hid Hfresh. by rewrite (merge_step_fresh e m1 c repo path cid).
  - intros Hid [existing Hex] Hst. unfold merge_step.
    rewrite Hid. cbn. rewrite Hex, Hst. done.
Qed.

Lemma merge_capsules_unfiltered_witness :
  (ex_no_hash !! "capsule_id" = None ->
     merge_capsules ex_env (take 1 ex_entries ++ (ex_no_hash, "./", "p") :: []) = None) /\
  (ex_no_hash !! "capsule_id" = Some (VStr "c9") -> ex_index1 !! "c9" = None ->
     merge_capsules ex_env (take 1 ex_entries ++ [(ex_no_hash, "./", "p")])
     = Some (<["c9" := stamp ex_no_hash "./" "p"]> ex_index1)) /\
  (ex_no_hash !! "capsule_id" = Some (VStr "c9") -> is_Some (ex_index1 !! "c9") ->
     ex_no_hash !! "status" = None ->
     merge_capsules ex_env (take 1 ex_entries ++ (ex_no_hash, "./", "p") :: []) = None).
Proof.
  apply (merge_capsules_unfiltered ex_env (take 1 ex_entries) [] ex_index1
           ex_no_hash "./" "p" "c9").
  reflexivity.
Defined.

(** X7: a record that is the only admitted one with its identifier enters
    the index exactly as loaded (tags included), with its source added. *)
Theorem sole_record_kept_verbatim e (l1 l2 : list entry) (x : entry) cid :
  all_admitted (l1 ++ x :: l2) ->
  carries cid x ->
  (forall y, y ∈ l1 ++ l2 -> ~ carries cid y) ->
  exists m : gmap string capsule,
    merge_capsules e (l1 ++ x :: l2) = Some m /\
    m !! cid = Some (stamp x.1.1 x.1.2 x.2).
Proof.
  intros Hl Hid Hothers.
  destruct (merge_capsules_spec e _ Hl) as (m & Hm & Hspec).
  exists m. split; [done|]. rewrite Hspec. unfold spec_index.
  assert (Hnone : forall l, (forall y, y ∈ l -> ~ carries cid y) ->
                            List.filter (has_id cid) l = []).
  { induction l as [|y l IH]; intros Hl'; cbn; [done|].
    destruct (has_id cid y) eqn:Hy.
    - apply has_id_carries in Hy. exfalso. apply (Hl' y); [by left|done].
    - apply IH. intros z Hz. apply Hl'. by right. }
  rewrite List.filter_app. cbn [List.filter].
  rewrite (proj2 (has_id_carries cid x) Hid).
  rewrite !Hnone; [done| |].
  - intros y Hy. apply Hothers, elem_of_app. by right.
  - intros y Hy. apply Hothers, elem_of_app. by left.
Qed.

Lemma sole_record_kept_verbatim_witness :
  exists m : gmap string capsule,
    merge_capsules ex_env (ex_entries ++ (ex_other_id, "./", "q") :: []) = Some m /\
    m !! "c2" = Some (stamp ex_other_id "./" "q").
Proof.
  apply (sole_record_kept_verbatim ex_env ex_entries [] (ex_other_id, "./", "q") "c2").
  - repeat constructor.
  - reflexivity.
  - intros y Hy. rewrite app_nil_r in Hy. apply list_elem_of_In in Hy. cbn in Hy.
    unfold carries. destruct Hy as [<-|[<-|[<-|[]]]]; by vm_compute.
Defined.

(** ** Type descriptors *)

Lemma of_nat_nonneg (n : nat) : (0 <= of_nat n)%Q.
Proof.
  unfold of_nat. change 0%Q with (inject_Z 0). rewrite <- Zle_Qle. lia.
Qed.

Lemma of_nat_le (k n : nat) : k <= n -> (of_nat k <= of_nat n)%Q.
Proof. intros H. unfold of_nat. rewrite <- Zle_Qle. lia. Qed.

Lemma ratio_bounds (k n : nat) : k <= n -> 0 < n -> (0 <= ratio k n <= 1)%Q.
Proof.
  intros Hk Hn. unfold ratio. pose proof (of_nat_pos n Hn) as Hpos. split.
  - apply Qle_shift_div_l; [done|]. rewrite Qmult_0_l. apply of_nat_nonneg.
  - apply Qle_shift_div_r; [done|]. rewrite Qmult_1_l. by apply of_nat_le.
Qed.

Lemma ratio_full (n : nat) : 0 < n -> (ratio n n == 1)%Q.
Proof.
  intros Hn. unfold ratio. apply Qmult_inv_r.
  intros H0. pose proof (of_nat_pos n Hn) as Hpos. rewrite H0 in Hpos.
  by apply Qlt_irrefl in Hpos.
Qed.

Lemma sample_values_window (data : list row) field :
  sample_values data field = non_missing (take 100 data) field.
Proof. unfold sample_values, non_missing, column. by rewrite take_sample_size. Qed.

Lemma sample_values_length (data : list row) field :
  length (sample_values data field) <= Nat.min 100 (length data).
Proof.
  unfold sample_values. etrans; [apply filter_length_le|].
  rewrite length_map, length_take. lia.
Qed.

(** What one iteration of the loop stores and appends. *)
Lemma detect_field_facts (B : pybuiltins) e (data : list row) field :
  let ct := (detect_field B e data field).1 in
  let w := (detect_field B e data field).2 in
  ct_sample_count ct = length (sample_values data field) /\
  (0 <= ct_confidence ct <= 1)%Q /\
  (ct_type ct = empty <-> sample_values data field = []) /\
  ct_type ct ≠ unknown /\
  w = (if bool_decide (ct_type ct = empty)
       then ["Column '" ++ field ++ "' is empty"]%string
       else if bool_decide (ct_type ct = mixed)
       then ["Column '" ++ field ++ "' has mixed types"]%string
       else []).
Proof.
  unfold detect_field.
  destruct (sample_values data field) as [|v sample] eqn:Hs.
  { cbn. split_and!; try done; try (split; lra). }
  set (n := length (v :: sample)).
  assert (Hn : 0 < n) by (subst n; cbn; lia).
  assert (Hle : forall f, length (List.filter f (v :: sample)) <= n).
  { intros f. apply filter_length_le. }
  pose proof (fun f => ratio_bounds _ n (Hle f) Hn) as Hr.
  repeat match goal with
         | |- context [if Qgtb ?a ?b then _ else _] => destruct (Qgtb a b)
         end;
    cbn [fst snd ct_type ct_confidence ct_sample_count]; split_and!;
    try done; try (by apply Hr);
    try (destruct (Hr (is_numeric B)); lra).
Qed.

Lemma detect_loop_fst (B : pybuiltins) e data (fieldnames : list string) :
  (detect_loop B e data fieldnames).1
  = foldl (fun (m : gmap string column_type) k => <[k := (detect_field B e data k).1]> m)
          ∅ fieldnames.
Proof.
  unfold detect_loop.
  generalize (∅ : gmap string column_type) ([] : list string).
  induction fieldnames as [|f fs IH]; intros m w; cbn; [done|]. apply IH.
Qed.

Lemma detect_loop_snd (B : pybuiltins) e data (fieldnames : list string) :
  (detect_loop B e data fieldnames).2
  = flat_map (fun k => (detect_field B e data k).2) fieldnames.
Proof.
  unfold detect_loop.
  assert (H : forall (m : gmap string column_type) (w : list string),
             (foldl (fun acc field =>
                       (<[field := (detect_field B e data field).1]> acc.1,
                        acc.2 ++ (detect_field B e data field).2))
                    (m, w) fieldnames).2
             = w ++ flat_map (fun k => (detect_field B e data k).2) fieldnames).
  { induction fieldnames as [|f fs IH]; intros m w; cbn; [by rewrite app_nil_r|].
    rewrite IH. cbn. by rewrite <- app_assoc. }
  apply (H ∅ []).
Qed.

Lemma detect_column_types_lookup (B : pybuiltins) e (data : list row) fieldnames field :
  (detect_column_types B e data fieldnames).1 !! field
  = if decide (data ≠ [] /\ field ∈ fieldnames)
    then Some (detect_field B e data field).1
    else None.
Proof.
  unfold detect_column_types. destruct data as [|r data].
  { cbn. rewrite lookup_empty. rewrite decide_False; [done|]. by intros [? _]. }
  rewrite detect_loop_fst, foldl_insert_lookup, lookup_empty.
  destruct (decide (field ∈ fieldnames)).
  - by rewrite decide_True.
  - rewrite decide_False; [done|]. by intros [_ ?].
Qed.

(** X8: type inference gives a descriptor to exactly the field names of a
    non-empty table (none at all for an empty one); in each, the confidence
    lies in [0, 1], the sample count is the number of non-empty values in
    the first 100 rows, and the type is [empty] exactly when that count is
    0. *)
Theorem type_descriptor_bounds (B : pybuiltins) (e : pyenv)
    (data : list row) (fieldnames : list string) :
  let column_types := (detect_column_types B e data fieldnames).1 in
  (forall field, is_Some (column_types !! field) <-> data ≠ [] /\ field ∈ fieldnames) /\
  (forall field ct, column_types !! field = Some ct ->
     (0 <= ct_confidence ct <= 1)%Q /\
     ct_sample_count ct = length (non_missing (take 100 data) field) /\
     ct_sample_count ct <= 100 /\ ct_sample_count ct <= length data /\
     (ct_type ct = empty <-> ct_sample_count ct = 0)).
Proof.
  intros column_types. subst column_types. split.
  - intros field. rewrite detect_column_types_lookup.
    case_decide as H; split; try done; try (by eexists); by intros [? ?].
  - intros field ct. rewrite detect_column_types_lookup. case_decide; [|done].
    intros [= <-].
    destruct (detect_field_facts B e data field) as (Hn & Hc & He & _ & _).
    pose proof (sample_values_length data field) as Hlen.
    pose proof (sample_values_window data field) as Hs.
    rewrite Hn. split; [exact Hc|]. split; [by rewrite Hs|].
    split; [lia|]. split; [lia|].
    rewrite He. by destruct (sample_values data field).
Qed.

(** X9: type inference emits one warning per field name whose column is
    typed [empty] or [mixed], and no other warning. *)
Theorem type_warnings_count (B : pybuiltins) (e : pyenv)
    (data : list row) (fieldnames : list string) :
  let column_types := (detect_column_types B e data fieldnames).1 in
  let warnings := (detect_column_types B e data fieldnames).2 in
  length warnings
  = length (List.filter
              (fun field =>
                 bool_decide (lookup_type column_types field = Some empty \/
                              lookup_type column_types field = Some mixed))
              fieldnames).
Proof.
  intros column_types warnings. subst warnings.
  destruct data as [|r data].
  { cbn. induction fieldnames as [|f fs IH]; [done|]. cbn.
    unfold lookup_type. rewrite lookup_empty. cbn.
    rewrite bool_decide_eq_false_2 by (by intros [?|?]). apply IH. }
  assert (Hty : forall f, f ∈ fieldnames ->
            lookup_type column_types f = Some (ct_type (detect_field B e (r :: data) f).1)).
  { intros f Hf. unfold lookup_type. subst column_types.
    rewrite detect_column_types_lookup. by rewrite decide_True. }
  unfold detect_column_types. rewrite detect_loop_snd.
  clearbody column_types. induction fieldnames as [|f fs IH]; [done|].
  cbn [flat_map List.filter]. rewrite length_app, IH
    by (intros f' Hf'; apply Hty; by right).
  rewrite (Hty f) by (by left).
  destruct (detect_field_facts B e (r :: data) f) as (_ & _ & _ & _ & ->).
  destruct (ct_type (detect_field B e (r :: data) f).1); cbn; reflexivity.
Qed.

Lemma Qgtb_true (a b : Q) : Qgtb a b = true <-> (b < a)%Q.
Proof. unfold Qgtb. apply Qltb_true. Qed.

(** X10: a column whose sampled values are all boolean tokens (["0"] and
    ["1"] among them) is typed [boolean] with confidence 1, whatever
    [float] makes of the values, and the profiler then gives it a
    categorical profile, never a numeric one. *)
Theorem boolean_tokens_take_precedence (B : pybuiltins) (e : pyenv)
    (data : list row) (fieldnames : list string) (field : string) :
  field ∈ fieldnames ->
  sample_values data field ≠ [] ->
  Forall (fun v => is_boolean v = true) (sample_values data field) ->
  let column_types := (detect_column_types B e data fieldnames).1 in
  (exists ct, column_types !! field = Some ct /\
              ct_type ct = boolean /\ (ct_confidence ct == 1)%Q) /\
  (exists p, columns (calculate_statistics B e data fieldnames column_types) !! field
             = Some (Categorical p) /\ cp_type p = boolean).
Proof.
  intros Hf Hne Hall column_types.
  assert (Hd : data ≠ []).
  { intros ->. by apply Hne. }
  assert (Hfield : (detect_field B e data field).1
                   = ColumnType boolean
                       (ratio (length (sample_values data field))
                              (length (sample_values data field)))
                       (length (sample_values data field))).
  { unfold detect_field.
    destruct (sample_values data field) as [|v sample] eqn:Hs; [done|].
    assert (Hb : List.filter is_boolean (v :: sample) = v :: sample).
    { apply forallb_filter_id, forallb_forall. intros x Hx.
      rewrite Forall_forall in Hall. by apply Hall, list_elem_of_In. }
    rewrite Hb.
    assert (Hg : Qgtb (ratio (length (v :: sample)) (length (v :: sample))) (9 # 10) = true).
    { apply Qgtb_true.
      assert (Hpos : 0 < length (v :: sample)) by (cbn [length]; lia).
      rewrite (ratio_full _ Hpos). reflexivity. }
    by rewrite Hg. }
  assert (Hct : column_types !! field = Some (detect_field B e data field).1).
  { subst column_types. rewrite detect_column_types_lookup. by rewrite decide_True. }
  split.
  - eexists. split; [exact Hct|]. rewrite Hfield.
    cbn [ct_type ct_confidence]. split; [done|].
    apply ratio_full. destruct (sample_values data field); [done|cbn [length]; lia].
  - rewrite calculate_statistics_columns, stats_loop_columns by done.
    rewrite decide_True by done. unfold column_stats_of. cbn [snd].
    unfold type_or_unknown, lookup_type. rewrite Hct, Hfield. cbn.
    eexists. split; reflexivity.
Qed.

Lemma boolean_tokens_take_precedence_witness :
  let column_types := (detect_column_types ex_builtins ex_env ex_flags ["on"]).1 in
  (exists ct, column_types !! "on" = Some ct /\
              ct_type ct = boolean /\ (ct_confidence ct == 1)%Q) /\
  (exists p, columns (calculate_statistics ex_builtins ex_env ex_flags ["on"] column_types)
               !! "on"
             = Some (Categorical p) /\ cp_type p = boolean).
Proof.
  apply (boolean_tokens_take_precedence ex_builtins ex_env ex_flags ["on"] "on").
  - set_solver.
  - by vm_compute.
  - repeat constructor.
Defined.

(** ** Profiles *)

Lemma stats_loop_missing_lookup (B : pybuiltins) e data column_types fieldnames field :
  (stats_loop B e data column_types fieldnames).2 !! field
  = if decide (field ∈ fieldnames) then Some (spec_missing data field) else None.
Proof.
  unfold stats_loop. rewrite foldl_insert_pair. cbn [snd].
  by rewrite foldl_insert_lookup, lookup_empty.
Qed.

Lemma calculate_statistics_missing (B : pybuiltins) e (data : list row)
    fieldnames column_types :
  data ≠ [] ->
  missing_values (calculate_statistics B e data fieldnames column_types)
  = (stats_loop B e data column_types fieldnames).2.
Proof.
  intros Hd. unfold calculate_statistics. destruct data as [|r data]; [done|].
  by destruct (stats_loop B e (r :: data) column_types fieldnames).
Qed.

Lemma missing_plus_present (data : list row) field :
  spec_missing data field + length (non_missing data field) = length data.
Proof.
  unfold spec_missing, non_missing.
  pose proof (filter_length truthy (column data field)) as H.
  unfold column in *. rewrite length_map in H. lia.
Qed.

Lemma parsed_plus_invalid (B : pybuiltins) (l : list string) :
  length (omap (float B) l)
  + length (List.filter (fun v => negb (is_numeric B v)) l) = length l.
Proof.
  induction l as [|v l IH]; [done|]. cbn. unfold is_numeric in *.
  destruct (float B v); cbn in *; lia.
Qed.

(** X11: every row of a column is accounted for: it is missing or present,
    and in a numeric profile the count of values, the number of present
    texts that [float] rejects and the number of missing values add up to
    the number of rows. *)
Theorem column_values_accounted (B : pybuiltins) (e : pyenv)
    (data : list row) (fieldnames : list string)
    (column_types : gmap string column_type) (field : string) :
  data ≠ [] -> field ∈ fieldnames ->
  let st := calculate_statistics B e data fieldnames column_types in
  let invalid :=
    length (List.filter (fun v => negb (is_numeric B v)) (non_missing data field)) in
  missing_values st !! field = Some (spec_missing data field) /\
  spec_missing data field + length (non_missing data field) = length data /\
  (forall p, columns st !! field = Some (Numeric p) ->
             np_count p + invalid + spec_missing data field = length data).
Proof.
  intros Hd Hf st invalid. subst st. split_and!.
  - rewrite calculate_statistics_missing, stats_loop_missing_lookup by done.
    by rewrite decide_True.
  - apply missing_plus_present.
  - intros p Hp. apply calculate_statistics_lookup in Hp as (_ & _ & Hp).
    unfold column_stats_of in Hp. cbn [snd] in Hp.
    case_bool_decide; [|done].
    destruct (parse_values B _) as [|x rest] eqn:Hv; [done|].
    injection Hp as ->. unfold numeric_stats. cbn [np_count].
    rewrite <- Hv. unfold parse_values.
    pose proof (parsed_plus_invalid B (non_missing data field)) as H1.
    pose proof (missing_plus_present data field) as H2.
    unfold non_missing, column in *. subst invalid. lia.
Qed.

Lemma column_values_accounted_witness :
  let st := calculate_statistics ex_builtins ex_env ex_table ["n"; "k"] ex_types in
  let invalid :=
    length (List.filter (fun v => negb (is_numeric ex_builtins v))
                        (non_missing ex_table "n")) in
  missing_values st !! "n" = Some (spec_missing ex_table "n") /\
  spec_missing ex_table "n" + length (non_missing ex_table "n") = length ex_table /\
  (forall p, columns st !! "n" = Some (Numeric p) ->
             np_count p + invalid + spec_missing ex_table "n" = length ex_table).
Proof.
  apply (column_values_accounted ex_builtins ex_env ex_table ["n"; "k"] ex_types "n").
  - discriminate.
  - set_solver.
Defined.

Lemma spec_missing_le (data : list row) field : spec_missing data field <= length data.
Proof. pose proof (missing_plus_present data field). lia. Qed.

Lemma sum_missing_le (data : list row) (cols : list string) :
  sum_list (map (spec_missing data) cols) <= length data * length cols.
Proof.
  induction cols as [|f cols IH]; cbn; [lia|].
  pose proof (spec_missing_le data f). lia.
Qed.

(** X12: the quality score always lies in [0, 1]. *)
Theorem quality_score_bounds (B : pybuiltins) (e : pyenv)
    (data : list row) (fieldnames : list string)
    (column_types : gmap string column_type) :
  (0 <= quality_score (calculate_statistics B e data fieldnames column_types) <= 1)%Q.
Proof.
  destruct data as [|r data]; [cbn; lra|].
  destruct fieldnames as [|f fs].
  { replace (calculate_statistics B e (r :: data) [] column_types)
      with (Stats (length (r :: data)) ∅ ∅ 0 [] None) by reflexivity.
    cbn [quality_score]. lra. }
  rewrite calculate_statistics_quality by done. unfold spec_quality.
  set (M := sum_list _). set (T := (_ * _)%nat).
  assert (HM : M <= T) by apply sum_missing_le.
  assert (HT : 0 < T).
  { subst T. assert (Hc : 0 < length (spec_columns (f :: fs))).
    { unfold spec_columns.
      assert (f ∈ remove_dups (f :: fs)) as Hin by (apply elem_of_remove_dups; by left).
      destruct (remove_dups (f :: fs)); [by apply elem_of_nil in Hin|cbn; lia]. }
    cbn [length]. lia. }
  destruct (ratio_bounds M T HM HT) as [H0 H1]. unfold ratio in *. lra.
Qed.

(** ** Numeric profiles *)

Lemma py_min_member (x : pyfloat) (rest : list pyfloat) : py_min x rest ∈ x :: rest.
Proof.
  unfold py_min. revert x. induction rest as [|y rest IH]; intros x; cbn; [by left|].
  destruct (flt y x).
  - right. apply IH.
  - specialize (IH x). apply elem_of_cons in IH as [->|IH]; [by left|].
    right. by right.
Qed.

Lemma py_max_member (x : pyfloat) (rest : list pyfloat) : py_max x rest ∈ x :: rest.
Proof.
  unfold py_max. revert x. induction rest as [|y rest IH]; intros x; cbn; [by left|].
  destruct (flt x y).
  - right. apply IH.
  - specialize (IH x). apply elem_of_cons in IH as [->|IH]; [by left|].
    right. by right.
Qed.

(** Sums and quotients of rounded values. *)
Section Moments.
Context (B : pybuiltins) (HB : rounding_ok B).

Notation nonneg := (fun v : pyfloat => float_le (Finite 0) v).

Lemma fadd_nonneg (a b : pyfloat) :
  float_le (Finite 0) a -> float_le (Finite 0) b -> float_le (Finite 0) (fadd B a b).
Proof.
  intros Ha Hb. destruct a as [x| | |], b as [y| | |]; try done.
  cbn [fadd]. apply nearest_nonneg; [done|].
  unfold float_le, fle in Ha, Hb. apply Qle_bool_iff in Ha, Hb. lra.
Qed.

Lemma fsum_nonneg (l : list pyfloat) :
  Forall nonneg l -> float_le (Finite 0) (fsum B l).
Proof.
  intros Hl. unfold fsum.
  assert (H : forall a, float_le (Finite 0) a ->
                        float_le (Finite 0) (foldl (fadd B) a l)).
  { induction Hl as [|v l Hv _ IH]; intros a Ha; cbn; [done|].
    apply IH. by apply fadd_nonneg. }
  apply H. reflexivity.
Qed.

Lemma fdiv_count_nonneg (a : pyfloat) (n : nat) :
  0 < n -> float_le (Finite 0) a ->
  float_le (Finite 0) (fdiv B a (Finite (of_nat n))).
Proof.
  intros Hn Ha. pose proof (of_nat_pos n Hn) as Hpos.
  assert (Hz : Qeq_bool (of_nat n) 0 = false).
  { apply not_true_iff_false. rewrite Qeq_bool_iff. lra. }
  destruct a as [x| | |]; try done.
  - cbn [fdiv]. rewrite Hz. apply nearest_nonneg; [done|].
    unfold float_le, fle in Ha. apply Qle_bool_iff in Ha.
    apply Qle_shift_div_l; [done|]. lra.
  - cbn [fdiv is_zero]. rewrite Hz. unfold is_negative. cbn [flt].
    replace (Qltb (of_nat n) 0) with false by (symmetry; apply Qltb_false; lra).
    done.
Qed.

Lemma fadd_finite_not_nan (a b : pyfloat) :
  is_nan a = false -> is_finite b = true -> is_nan (fadd B a b) = false.
Proof.
  intros Ha Hb. destruct a as [x| | |], b as [y| | |]; try done.
  cbn [fadd]. by apply nearest_not_nan.
Qed.

Lemma fsum_finite_not_nan (l : list pyfloat) :
  all_finite l -> is_nan (fsum B l) = false.
Proof.
  intros Hl. unfold fsum.
  assert (H : forall a, is_nan a = false -> is_nan (foldl (fadd B) a l) = false).
  { induction Hl as [|v l Hv _ IH]; intros a Ha; cbn; [done|].
    apply IH. by apply fadd_finite_not_nan. }
  by apply H.
Qed.

Lemma fdiv_count_not_nan (a : pyfloat) (n : nat) :
  0 < n -> is_nan a = false -> is_nan (fdiv B a (Finite (of_nat n))) = false.
Proof.
  intros Hn Ha. pose proof (of_nat_pos n Hn) as Hpos.
  assert (Hz : Qeq_bool (of_nat n) 0 = false).
  { apply not_true_iff_false. rewrite Qeq_bool_iff. lra. }
  destruct a as [x| | |]; try done; cbn [fdiv is_zero]; rewrite Hz.
  - by apply nearest_not_nan.
  - by destruct (xorb _ _).
  - by destruct (xorb _ _).
Qed.

Lemma fsub_finite_not_nan (a m : pyfloat) :
  is_finite a = true -> is_nan m = false -> is_nan (fsub B a m) = false.
Proof.
  intros Ha Hm. destruct a as [x| | |], m as [y| | |]; try done.
  cbn [fsub fneg fadd]. by apply nearest_not_nan.
Qed.

Lemma fsub_ordered_nonneg (lo hi : pyfloat) :
  is_finite lo = true -> is_finite hi = true -> float_le lo hi ->
  float_le (Finite 0) (fsub B hi lo).
Proof.
  intros Hlo Hhi H. destruct lo as [x| | |], hi as [y| | |]; try done.
  cbn [fsub fneg fadd]. apply nearest_nonneg; [done|].
  unfold float_le, fle in H. apply Qle_bool_iff in H. lra.
Qed.

(** The variance of finite values: the mean is not NaN, so no deviation
    is, and their squares are not negative. *)
Lemma variance_nonneg (l : list pyfloat) :
  square_ok B -> all_finite l -> 0 < length l ->
  let mean_val := fdiv B (fsum B l) (Finite (of_nat (length l))) in
  float_le (Finite 0)
    (fdiv B (fsum B (map (fun x => pow B (fsub B x mean_val) 2) l))
            (Finite (of_nat (length l)))).
Proof.
  intros Hsq Hl Hn mean_val.
  assert (Hm : is_nan mean_val = false).
  { apply fdiv_count_not_nan; [done|]. by apply fsum_finite_not_nan. }
  apply fdiv_count_nonneg; [done|]. apply fsum_nonneg.
  apply Forall_forall. intros y Hy.
  apply list_elem_of_In, in_map_iff in Hy as (v & <- & Hv).
  apply Hsq, fsub_finite_not_nan; [|done].
  rewrite Forall_forall in Hl. by apply Hl, list_elem_of_In.
Qed.

End Moments.

Lemma ex_builtins_square_ok : square_ok ex_builtins.
Proof.
  intros [q| | |] Hx; try done. unfold float_le. cbn.
  apply Qle_bool_iff. nra.
Qed.

(** X13: in a numeric profile the count is the number of parsed values,
    neither outlier count exceeds it, the minimum, the maximum and the
    median are values of the column, and the range is the float difference
    of the maximum and the minimum.  When no value is NaN, every value lies
    between the minimum and the maximum.  When all values are finite, the
    range and the variance are not negative. *)
Theorem numeric_profile_sanity (B : pybuiltins) (e : pyenv)
    (data : list row) (fieldnames : list string)
    (column_types : gmap string column_type) (field : string)
    (p : numeric_profile) :
  rounding_ok B -> square_ok B -> sort_ok B ->
  columns (calculate_statistics B e data fieldnames column_types) !! field
    = Some (Numeric p) ->
  let values := parse_values B (column data field) in
  np_count p = length values /\
  np_outliers p <= np_count p /\ np_extreme_outliers p <= np_count p /\
  np_min p ∈ values /\ np_max p ∈ values /\ np_median p ∈ values /\
  np_range p = fsub B (np_max p) (np_min p) /\
  (Forall (fun v => is_nan v = false) values ->
   forall v, v ∈ values -> float_le (np_min p) v /\ float_le v (np_max p)) /\
  (Forall (fun v => is_finite v = true) values ->
   float_le (Finite 0) (np_range p) /\ float_le (Finite 0) (np_variance p)).
Proof.
  intros HB Hsq Hso Hp values. apply calculate_statistics_lookup in Hp as (_ & _ & Hp).
  unfold column_stats_of in Hp. cbn [snd] in Hp.
  case_bool_decide; [|done].
  fold (column data field) in Hp. fold values in Hp.
  destruct values as [|x rest] eqn:Hv; [done|].
  injection Hp as ->. unfold numeric_stats.
  cbn [np_min np_max np_variance np_range np_outliers np_extreme_outliers
       np_count np_median].
  set (l := x :: rest). set (n := length l).
  assert (Hn : 0 < n) by (subst n l; cbn [length]; lia).
  split_and!.
  - done.
  - apply filter_length_le.
  - apply filter_length_le.
  - apply py_min_member.
  - apply py_max_member.
  - apply numeric_stats_member_any; [done|].
    pose proof (Nat.div_mod_eq n 2). pose proof (Nat.mod_upper_bound n 2).
    fold l. fold n. lia.
  - done.
  - intros Hl v Hin. split; [by apply py_min_le|by apply py_max_ge].
  - intros Hf. pose proof (all_finite_no_nan l Hf) as Hl. split.
    + rewrite Forall_forall in Hf. apply fsub_ordered_nonneg; [done| | |].
      * apply Hf, py_min_member.
      * apply Hf, py_max_member.
      * apply py_min_le; [done|]. apply py_max_member.
    + by apply variance_nonneg.
Qed.

Lemma numeric_profile_sanity_witness :
  let values := parse_values ex_builtins (column ex_table "n") in
  np_count ex_profile_n = length values /\
  np_outliers ex_profile_n <= np_count ex_profile_n /\
  np_extreme_outliers ex_profile_n <= np_count ex_profile_n /\
  np_min ex_profile_n ∈ values /\ np_max ex_profile_n ∈ values /\
  np_median ex_profile_n ∈ values /\
  np_range ex_profile_n = fsub ex_builtins (np_max ex_profile_n) (np_min ex_profile_n) /\
  (Forall (fun v => is_nan v = false) values ->
   forall v, v ∈ values ->
             float_le (np_min ex_profile_n) v /\ float_le v (np_max ex_profile_n)) /\
  (Forall (fun v => is_finite v = true) values ->
   float_le (Finite 0) (np_range ex_profile_n) /\
   float_le (Finite 0) (np_variance ex_profile_n)).
Proof.
  apply (numeric_profile_sanity ex_builtins ex_env ex_table ["n"; "k"] ex_types "n").
  - exact ex_builtins_rounding_ok.
  - exact ex_builtins_square_ok.
  - exact ex_builtins_sort_ok.
  - vm_compute. reflexivity.
Defined.

(** ** value_counts and top_values *)

Lemma assoc_Some_elem (d : list (string * nat)) k c :
  assoc k d = Some c -> (k, c) ∈ d.
Proof.
  induction d as [|[k' c'] d IH]; cbn; [done|].
  destruct (String.eqb_spec k' k) as [->|Hne].
  - intros [= ->]. by left.
  - intros H. right. by apply IH.
Qed.

Lemma assoc_None_keys (d : list (string * nat)) k :
  assoc k d = None <-> k ∉ d.*1.
Proof.
  induction d as [|[k' c'] d IH]; cbn.
  - split; [intros _; apply not_elem_of_nil|done].
  - destruct (String.eqb_spec k' k) as [->|Hne].
    + split; [done|]. intros H. exfalso. apply H. by left.
    + rewrite IH, not_elem_of_cons. naive_solver.
Qed.

Lemma elem_assoc_Some (d : list (string * nat)) k c :
  NoDup d.*1 -> (k, c) ∈ d -> assoc k d = Some c.
Proof.
  induction d as [|[k' c'] d IH]; cbn; intros Hnd Hin; [by apply elem_of_nil in Hin|].
  apply NoDup_cons in Hnd as [Hk' Hnd].
  apply elem_of_cons in Hin as [[= -> ->]|Hin].
  - by rewrite String.eqb_refl.
  - destruct (String.eqb_spec k' k) as [->|Hne]; [|by apply IH].
    exfalso. apply Hk'. apply list_elem_of_fmap. by exists (k, c).
Qed.

Lemma increment_keys (v : string) (d : list (string * nat)) :
  (increment v d).*1 = if decide (v ∈ d.*1) then d.*1 else d.*1 ++ [v].
Proof.
  induction d as [|[k c] d IH]; cbn.
  - by rewrite decide_False by apply not_elem_of_nil.
  - destruct (String.eqb_spec k v) as [->|Hne]; cbn.
    + by rewrite decide_True by (by left).
    + rewrite IH. destruct (decide (v ∈ d.*1)).
      * by rewrite decide_True by (by right).
      * rewrite decide_False; [done|]. intros [?|?]%elem_of_cons; by subst.
Qed.

Lemma increment_NoDup (v : string) (d : list (string * nat)) :
  NoDup d.*1 -> NoDup (increment v d).*1.
Proof.
  intros Hnd. rewrite increment_keys. case_decide; [done|].
  apply NoDup_app. split_and!; [done| |apply NoDup_singleton].
  intros x Hx ->%list_elem_of_singleton. done.
Qed.

Lemma increment_assoc (v : string) (d : list (string * nat)) k :
  assoc k (increment v d)
  = if decide (k = v) then Some (S (default 0 (assoc v d))) else assoc k d.
Proof.
  induction d as [|[k' c] d IH]; cbn.
  - destruct (String.eqb_spec v k) as [->|Hne].
    + by rewrite decide_True.
    + by rewrite decide_False.
  - destruct (String.eqb_spec k' v) as [->|Hne]; cbn.
    + destruct (String.eqb_spec v k) as [->|Hne'].
      * by rewrite decide_True.
      * by rewrite decide_False.
    + rewrite IH. destruct (String.eqb_spec k' k) as [->|Hne'].
      * by rewrite decide_False.
      * done.
Qed.

Lemma occurrences_snoc (k v : string) (l : list string) :
  occurrences k (l ++ [v]) = occurrences k l + (if decide (k = v) then 1 else 0).
Proof.
  unfold occurrences. rewrite List.filter_app, length_app. cbn.
  destruct (String.eqb_spec k v); [by rewrite decide_True|by rewrite decide_False].
Qed.

Lemma count_values_counted (values : list string) :
  counted values (count_values values).
Proof.
  unfold count_values.
  assert (H : forall seen d, counted seen d ->
            counted (seen ++ values)
              (foldl (fun value_counts v =>
                        if truthy v then increment v value_counts else value_counts)
                     d values)).
  { induction values as [|v values IH]; intros seen d Hd; cbn.
    - by rewrite app_nil_r.
    - replace (seen ++ v :: values) with ((seen ++ [v]) ++ values)
        by (by rewrite <- app_assoc).
      apply IH. destruct Hd as [Hnd Hassoc]. destruct (truthy v) eqn:Hv.
      + split; [by apply increment_NoDup|].
        intros k. rewrite increment_assoc, occurrences_snoc.
        destruct (decide (k = v)) as [->|Hne].
        * rewrite Hassoc. rewrite (bool_decide_eq_true_2 (_ /\ 0 < _ + 1)) by (split; [done|lia]).
          case_bool_decide as Hc; cbn; f_equal; [lia|].
          assert (occurrences v seen = 0) by (destruct (occurrences v seen); [done|]; exfalso; apply Hc; split; [done|lia]).
          lia.
        * rewrite Hassoc, Nat.add_0_r. done.
      + split; [done|]. intros k. rewrite Hassoc, occurrences_snoc.
        destruct (decide (k = v)) as [->|Hne]; [|by rewrite Nat.add_0_r].
        rewrite !bool_decide_eq_false_2; [done| |]; intros [? _]; congruence. }
  apply (H [] []). split; [constructor|]. intros k. cbn.
  rewrite bool_decide_eq_false_2; [done|]. intros [_ ?]. unfold occurrences in *. cbn in *. lia.
Qed.

Lemma occurrences_pos (k : string) (l : list string) :
  0 < occurrences k l <-> k ∈ l.
Proof.
  unfold occurrences. induction l as [|v l IH]; cbn.
  - split; [lia|by intros ?%elem_of_nil].
  - destruct (String.eqb_spec k v) as [->|Hne]; cbn.
    + split; [by left|lia].
    + rewrite IH, elem_of_cons. naive_solver.
Qed.

Lemma count_values_elem (values : list string) k c :
  (k, c) ∈ count_values values <->
  truthy k = true /\ k ∈ values /\ c = occurrences k values.
Proof.
  destruct (count_values_counted values) as [Hnd Hassoc]. split.
  - intros Hin. apply (elem_assoc_Some _ _ _ Hnd) in Hin. rewrite Hassoc in Hin.
    case_bool_decide as Hc; [|done]. injection Hin as <-.
    destruct Hc as [? ?%occurrences_pos]. done.
  - intros (Ht & Hin & ->). apply assoc_Some_elem. rewrite Hassoc.
    rewrite bool_decide_eq_true_2; [done|]. split; [done|]. by apply occurrences_pos.
Qed.

Lemma count_values_keys (values : list string) :
  (count_values values).*1 ≡ₚ remove_dups (List.filter truthy values).
Proof.
  destruct (count_values_counted values) as [Hnd Hassoc].
  apply NoDup_Permutation; [done|apply NoDup_remove_dups|].
  intros k. split.
  - intros (kc & -> & Hin)%list_elem_of_fmap. destruct kc as [k c].
    apply count_values_elem in Hin as (Ht & Hin & _).
    apply elem_of_remove_dups, list_elem_of_In, filter_In.
    by rewrite <- list_elem_of_In.
  - intros Hk. apply elem_of_remove_dups, list_elem_of_In, filter_In in Hk as [Hin Ht].
    apply list_elem_of_In in Hin. apply list_elem_of_fmap.
    exists (k, occurrences k values). split; [done|]. by apply count_values_elem.
Qed.

Lemma insert_sorted_desc (x : string * nat) (l : list (string * nat)) :
  StronglySorted (fun a b => b.2 <= a.2) l ->
  StronglySorted (fun a b => b.2 <= a.2) (insert_sorted by_count_desc x l).
Proof.
  induction 1 as [|y l Hs IH Hy]; cbn [insert_sorted]; [repeat constructor|].
  unfold by_count_desc at 1. destruct (Nat.ltb_spec (snd x) (snd y)) as [Hlt|Hge].
  - constructor; [done|].
    rewrite insert_sorted_perm. constructor; [lia|done].
  - constructor; [by constructor|]. constructor; [done|].
    eapply Forall_impl; [exact Hy|]. intros z Hz. cbn in *. lia.
Qed.

Lemma sorted_desc (l : list (string * nat)) :
  StronglySorted (fun a b => b.2 <= a.2) (sorted by_count_desc l).
Proof.
  induction l as [|x l IH]; cbn; [constructor|]. by apply insert_sorted_desc.
Qed.

Lemma elem_of_take_elem {A} (l : list A) n x : x ∈ take n l -> x ∈ l.
Proof.
  revert n. induction l as [|y l IH]; intros [|n]; cbn; try by intros ?%elem_of_nil.
  intros [->|Hx]%elem_of_cons; [by left|]. right. by eapply IH.
Qed.

Lemma StronglySorted_take {A} (R : A -> A -> Prop) (l : list A) n :
  StronglySorted R l -> StronglySorted R (take n l).
Proof.
  intros Hs. revert n. induction Hs as [|x l Hs IH Hx]; intros [|n]; cbn;
    try constructor; [apply IH|].
  eapply Forall_forall. intros y Hy. rewrite Forall_forall in Hx.
  apply Hx. by eapply elem_of_take_elem.
Qed.

Lemma top_values_of (e : pyenv) col_type confidence data_len (values : list string) :
  cp_top_values (categorical_stats e col_type confidence data_len values)
  = map (fun vc : string * nat =>
           TopValue vc.1 vc.2 (of_nat vc.2 / of_nat data_len * 100)%Q)
        (take 10 (sorted by_count_desc (count_values values))).
Proof. reflexivity. Qed.

Lemma categorical_entry (B : pybuiltins) e (data : list row) fieldnames column_types
    field (p : categorical_profile) :
  columns (calculate_statistics B e data fieldnames column_types) !! field
    = Some (Categorical p) ->
  p = categorical_stats e (type_or_unknown column_types field)
        (confidence_or_0 column_types field) (length data) (column data field).
Proof.
  intros Hp. apply calculate_statistics_lookup in Hp as (_ & _ & Hp).
  unfold column_stats_of in Hp. cbn [snd] in Hp.
  case_bool_decide; [destruct (parse_values B _); done|]. by injection Hp as ->.
Qed.

(** X14: the entries of [top_values] are distinct non-empty values of the
    column, each with the number of rows that hold it and that number as a
    percentage of all rows, listed by decreasing count. *)
Theorem top_values_are_frequencies (B : pybuiltins) (e : pyenv)
    (data : list row) (fieldnames : list string)
    (column_types : gmap string column_type) (field : string)
    (p : categorical_profile) :
  columns (calculate_statistics B e data fieldnames column_types) !! field
    = Some (Categorical p) ->
  NoDup (map tv_value (cp_top_values p)) /\
  StronglySorted (fun a b => tv_count b <= tv_count a) (cp_top_values p) /\
  (forall tv, tv ∈ cp_top_values p ->
     tv_value tv ≠ "" /\ tv_value tv ∈ column data field /\
     tv_count tv = occurrences (tv_value tv) (column data field) /\
     0 < tv_count tv /\
     tv_percentage tv = (of_nat (tv_count tv) / of_nat (length data) * 100)%Q).
Proof.
  intros Hp. apply categorical_entry in Hp as ->. rewrite top_values_of.
  set (d := count_values (column data field)).
  set (top := take 10 (sorted by_count_desc d)).
  assert (Hsub : forall kc, kc ∈ top -> kc ∈ d).
  { intros kc Hkc. subst top. apply elem_of_take_elem in Hkc.
    by rewrite sorted_perm in Hkc. }
  split_and!.
  - rewrite map_map. cbn.
    assert (Hnd : NoDup (sorted by_count_desc d).*1).
    { rewrite sorted_perm. apply count_values_counted. }
    assert (Hpre : top.*1 `sublist_of` (sorted by_count_desc d).*1).
    { subst top. rewrite fmap_take. apply sublist_take. }
    eapply sublist_NoDup; [exact Hnd|exact Hpre].
  - assert (Hs : StronglySorted (fun a b : string * nat => b.2 <= a.2) top).
    { apply StronglySorted_take, sorted_desc. }
    clearbody top. clear Hsub. induction Hs as [|x l Hs IH Hx]; cbn; constructor; [done|].
    apply Forall_map. eapply Forall_impl; [exact Hx|]. done.
  - intros tv Htv. apply list_elem_of_In, in_map_iff in Htv as ([k c] & <- & Hin).
    apply list_elem_of_In, Hsub, count_values_elem in Hin as (Ht & Hin & ->). cbn.
    split_and!; try done.
    + intros ->. done.
    + by apply occurrences_pos.
Qed.

Lemma top_values_are_frequencies_witness :
  exists p,
    columns (calculate_statistics ex_builtins ex_env ex_table ["n"; "k"] ex_types) !! "k"
      = Some (Categorical p) /\
    NoDup (map tv_value (cp_top_values p)) /\
    StronglySorted (fun a b => tv_count b <= tv_count a) (cp_top_values p) /\
    (forall tv, tv ∈ cp_top_values p ->
       tv_value tv ≠ "" /\ tv_value tv ∈ column ex_table "k" /\
       tv_count tv = occurrences (tv_value tv) (column ex_table "k") /\
       0 < tv_count tv /\
       tv_percentage tv = (of_nat (tv_count tv) / of_nat (length ex_table) * 100)%Q).
Proof.
  eexists. split; [vm_compute; reflexivity|].
  apply (top_values_are_frequencies ex_builtins ex_env ex_table ["n"; "k"] ex_types "k").
  vm_compute. reflexivity.
Defined.

(** X15: [top_values] has min(10, unique_count) entries, so when a column
    has at most 10 distinct values every non-empty value of the column is
    listed. *)
Theorem top_values_cover (B : pybuiltins) (e : pyenv)
    (data : list row) (fieldnames : list string)
    (column_types : gmap string column_type) (field : string)
    (p : categorical_profile) :
  pyenv_ok e ->
  columns (calculate_statistics B e data fieldnames column_types) !! field
    = Some (Categorical p) ->
  length (cp_top_values p) = Nat.min 10 (cp_unique_count p) /\
  (cp_unique_count p <= 10 ->
   forall v, v ∈ non_missing data field -> v ∈ map tv_value (cp_top_values p)).
Proof.
  intros He Hp. apply categorical_entry in Hp as ->. rewrite top_values_of.
  unfold categorical_stats at 1 2. cbn [cp_unique_count].
  fold (column data field). rewrite length_pyset by done.
  assert (Hlen : length (count_values (column data field))
                 = length (remove_dups (List.filter truthy (column data field)))).
  { rewrite <- (length_fmap fst). by rewrite count_values_keys. }
  split.
  - rewrite length_map, length_take, sorted_length, Hlen. done.
  - intros Hle v Hv. rewrite take_ge by (rewrite sorted_length, Hlen; lia).
    rewrite map_map. cbn.
    assert (Hin : v ∈ (count_values (column data field)).*1).
    { rewrite count_values_keys. by apply elem_of_remove_dups. }
    apply list_elem_of_fmap in Hin as (kc & -> & Hin).
    apply list_elem_of_In, in_map_iff. exists kc. split; [done|].
    apply list_elem_of_In. by rewrite sorted_perm.
Qed.

Lemma top_values_cover_witness :
  exists p,
    columns (calculate_statistics ex_builtins ex_env ex_table ["n"; "k"] ex_types) !! "k"
      = Some (Categorical p) /\
    length (cp_top_values p) = Nat.min 10 (cp_unique_count p) /\
    (cp_unique_count p <= 10 ->
     forall v, v ∈ non_missing ex_table "k" -> v ∈ map tv_value (cp_top_values p)).
Proof.
  eexists. split; [vm_compute; reflexivity|].
  apply (top_values_cover ex_builtins ex_env ex_table ["n"; "k"] ex_types "k").
  - exact ex_env_ok.
  - vm_compute. reflexivity.
Defined.

(** ** The validator and its messages *)

(** The result of [validate_data] on a non-empty table, spelled out. *)
Lemma validate_data_unfold (r : row) (data : list row) (st : stats)
    (cfg : config) (issues : list issue) :
  let n := length (r :: data) in
  let min_completeness := threshold cfg "data_quality" "min_completeness" (95 # 100) in
  let min_sample_size := threshold cfg "data_quality" "min_sample_size" 100 in
  let max_outlier_ratio := threshold cfg "data_quality" "max_outlier_ratio" (2 # 100) in
  let small := Qltb (of_nat n) min_sample_size in
  let complete := Qle_bool min_completeness (quality_score st) in
  let m1 := if small then (warning, SampleSizeBelow n min_sample_size)
            else (info, SampleSizeAdequate n) in
  let m2 := if complete then (info, DataQuality (quality_score st) min_completeness)
            else (error, DataQualityBelow (quality_score st) min_completeness) in
  let numeric_records := sum_over_numeric entry_count (columns st) in
  let outlier_ratio := ratio (sum_over_numeric entry_outliers (columns st)) numeric_records in
  let outlier :=
    if (0 <? numeric_records)%nat then
      if Qle_bool outlier_ratio max_outlier_ratio
      then [(info, OutlierRatio outlier_ratio max_outlier_ratio)]
      else [(warning, HighOutlierRatio outlier_ratio max_outlier_ratio)]
    else [] in
  let messages := m1 :: m2 :: outlier ++ map (fun i => (warning, Issue i)) issues in
  (validate_data (r :: data) st cfg issues).1.1 = negb small && complete /\
  (validate_data (r :: data) st cfg issues).1.2 = messages /\
  validation_messages (validate_data (r :: data) st cfg issues).2 = Some messages.
Proof.
  intros n min_completeness min_sample_size max_outlier_ratio small complete
    m1 m2 numeric_records outlier_ratio outlier messages.
  subst messages outlier m1 m2. unfold validate_data.
  fold n min_completeness min_sample_size max_outlier_ratio.
  fold small complete numeric_records. fold outlier_ratio.
  destruct small, complete, (0 <? numeric_records)%nat;
    try destruct (Qle_bool outlier_ratio max_outlier_ratio);
    split_and!; reflexivity.
Qed.

(** X16: on a non-empty table the verdict can be read off the messages: it
    is true exactly when the first two are of level info.  The first is
    never an error, the second never a warning, and no later message is an
    error; after at most one outlier message come the range issues, in
    order, as warnings; and the list is stored in [stats]. *)
Theorem verdict_read_from_messages (data : list row) (st : stats) (cfg : config)
    (issues : list issue) :
  data ≠ [] ->
  exists m1 m2 outlier,
    (validate_data data st cfg issues).1.2
      = m1 :: m2 :: outlier ++ map (fun i => (warning, Issue i)) issues /\
    ((validate_data data st cfg issues).1.1 = true <-> m1.1 = info /\ m2.1 = info) /\
    (m1.1 = info \/ m1.1 = warning) /\ (m2.1 = info \/ m2.1 = error) /\
    length outlier <= 1 /\ Forall (fun m : level * text => m.1 ≠ error) outlier /\
    validation_messages (validate_data data st cfg issues).2
      = Some (validate_data data st cfg issues).1.2.
Proof.
  intros Hd. destruct data as [|r data]; [done|].
  destruct (validate_data_unfold r data st cfg issues) as (Hv & Hm & Hs).
  rewrite Hv, Hm, Hs. eexists _, _, _. split; [reflexivity|].
  destruct (Qltb _ _), (Qle_bool _ (quality_score st)); cbn [negb andb fst];
    (split; [split; [try done; by intros [=]|by intros [? ?]]|]);
    (split; [auto|]); (split; [auto|]);
    (destruct (0 <? _)%nat; [destruct (Qle_bool _ _)|]);
    cbn [length]; (split; [lia|]); (split; [|done]);
    repeat constructor; done.
Qed.

Lemma verdict_read_from_messages_witness :
  exists m1 m2 outlier,
    (validate_data ex_table ex_stats ex_config []).1.2
      = m1 :: m2 :: outlier ++ map (fun i => (warning, Issue i)) [] /\
    ((validate_data ex_table ex_stats ex_config []).1.1 = true
     <-> m1.1 = info /\ m2.1 = info) /\
    (m1.1 = info \/ m1.1 = warning) /\ (m2.1 = info \/ m2.1 = error) /\
    length outlier <= 1 /\ Forall (fun m : level * text => m.1 ≠ error) outlier /\
    validation_messages (validate_data ex_table ex_stats ex_config []).2
      = Some (validate_data ex_table ex_stats ex_config []).1.2.
Proof.
  apply (verdict_read_from_messages ex_table ex_stats ex_config []).
  discriminate.
Defined.

(** ** Configuration *)

(** The thresholds the stages read from the default configuration are the
    fallbacks written at each call. *)
Lemma default_thresholds_are_fallbacks :
  threshold (config_of get_default_config) "data_quality" "min_completeness" (95 # 100)
    = (95 # 100)%Q /\
  threshold (config_of get_default_config) "data_quality" "min_sample_size" 100 = 100%Q /\
  threshold (config_of get_default_config) "data_quality" "max_outlier_ratio" (2 # 100)
    = (2 # 100)%Q /\
  threshold (config_of get_default_config) "radio_frequency" "min_frequency_hz" 1000000
    = 1000000%Q /\
  threshold (config_of get_default_config) "radio_frequency" "max_frequency_hz" 1000000000000
    = 1000000000000%Q /\
  threshold (config_of get_default_config) "lattice_parameters" "min_lattice_constant" (1 # 10)
    = (1 # 10)%Q /\
  threshold (config_of get_default_config) "lattice_parameters" "max_lattice_constant" 100
    = 100%Q.
Proof. split_and!; by vm_compute. Qed.

Lemma validate_data_default_config (data : list row) (st : stats) (issues : list issue) :
  validate_data data st (config_of get_default_config) issues
  = validate_data data st (Config None) issues.
Proof.
  destruct default_thresholds_are_fallbacks as (H1 & H2 & H3 & _).
  unfold validate_data. by rewrite H1, H2, H3.
Qed.

Lemma range_issues_default_config (B : pybuiltins) (data : list row) field :
  range_issues B data (config_of get_default_config) field
  = range_issues B data (Config None) field.
Proof.
  destruct default_thresholds_are_fallbacks as (_ & _ & _ & H4 & H5 & H6 & H7).
  unfold range_issues. by rewrite H4, H5, H6, H7.
Qed.

Lemma validate_numeric_ranges_default_config (B : pybuiltins) (data : list row)
    fieldnames column_types :
  validate_numeric_ranges B data fieldnames column_types (config_of get_default_config)
  = validate_numeric_ranges B data fieldnames column_types (Config None).
Proof.
  unfold validate_numeric_ranges.
  induction fieldnames as [|f fs IH]; cbn [flat_map]; [done|].
  by rewrite IH, range_issues_default_config.
Qed.

Lemma run_default_config (B : pybuiltins) e (data : list row) fieldnames :
  run B e data fieldnames (config_of get_default_config)
  = run B e data fieldnames (Config None).
Proof.
  unfold run. destruct (detect_column_types B e data fieldnames) as [ct w].
  by rewrite validate_data_default_config, validate_numeric_ranges_default_config.
Qed.

(** X17: [load_config] always returns a configuration that has
    ['thresholds'] and ['file_paths'].  It is the file's only when the file
    parsed and has both; in every other case (no file, an exception, a
    file with thresholds but no file paths) it is the default
    configuration, under which a run gives exactly what it gives with no
    thresholds at all: the defaults repeat the fallbacks of the stages. *)
Theorem load_config_fallback (r : config_read) :
  config_complete (load_config r) = true /\
  ((exists c, r = ConfigParsed c /\ config_complete c = true /\ load_config r = c) \/
   ((forall c, r = ConfigParsed c -> config_complete c = false) /\
    load_config r = get_default_config)) /\
  (load_config r = get_default_config ->
   forall (B : pybuiltins) e (data : list row) fieldnames,
     run B e data fieldnames (config_of (load_config r))
     = run B e data fieldnames (Config None)).
Proof.
  split_and!.
  - destruct r as [| |c]; cbn; try done. by destruct (config_complete c) eqn:Hc.
  - destruct r as [| |c]; cbn; try (right; split; [by intros ? [=]|done]).
    destruct (config_complete c) eqn:Hc.
    + left. by exists c.
    + right. split; [by intros ? [= <-]|done].
  - intros -> B e data fieldnames. apply run_default_config.
Qed.

(** X18: under the default configuration a non-empty table passes exactly
    when it has at least 100 rows and at most one cell in twenty is
    missing. *)
Theorem default_pass_criterion (B : pybuiltins) (e : pyenv)
    (data : list row) (fieldnames : list string)
    (column_types : gmap string column_type) (issues : list issue) :
  data ≠ [] -> fieldnames ≠ [] ->
  let st := calculate_statistics B e data fieldnames column_types in
  let total_missing := sum_list (map (spec_missing data) (spec_columns fieldnames)) in
  let total_cells := length data * length (spec_columns fieldnames) in
  (validate_data data st (config_of get_default_config) issues).1.1 = true <->
  100 <= length data /\ 20 * total_missing <= total_cells.
Proof.
  intros Hd Hf st total_missing total_cells.
  rewrite validate_data_default_config.
  pose proof (calculate_statistics_quality B e data fieldnames column_types Hd Hf) as Hq.
  fold st in Hq. destruct data as [|r data]; [done|].
  rewrite validate_data_verdict, andb_true_iff, negb_true_iff, Qltb_false,
    Qle_bool_iff, Hq.
  change (threshold (Config None) "data_quality" "min_sample_size" 100) with 100%Q.
  change (threshold (Config None) "data_quality" "min_completeness" (95 # 100))
    with (95 # 100)%Q.
  unfold spec_quality. fold total_missing. fold total_cells.
  assert (HT : 0 < total_cells).
  { subst total_cells. assert (Hc : 0 < length (spec_columns fieldnames)).
    { unfold spec_columns. destruct fieldnames as [|f fs]; [done|].
      assert (f ∈ remove_dups (f :: fs)) as Hin by (apply elem_of_remove_dups; by left).
      destruct (remove_dups (f :: fs)); [by apply elem_of_nil in Hin|cbn; lia]. }
    cbn [length]. lia. }
  pose proof (of_nat_pos _ HT) as Hpos.
  assert (H100 : (100 <= of_nat (length (r :: data)))%Q <-> 100 <= length (r :: data)).
  { unfold of_nat. change 100%Q with (inject_Z 100). rewrite <- Zle_Qle. lia. }
  assert (Hfrac : (95 # 100 <= 1 - of_nat total_missing / of_nat total_cells)%Q
                  <-> 20 * total_missing <= total_cells).
  { assert (Hmul : (of_nat total_missing / of_nat total_cells * of_nat total_cells
                    == of_nat total_missing)%Q).
    { rewrite Qmult_comm. apply Qmult_div_r. intros H0. rewrite H0 in Hpos.
      by apply Qlt_irrefl in Hpos. }
    assert (Hnat : (20 * of_nat total_missing <= of_nat total_cells)%Q
                   <-> 20 * total_missing <= total_cells).
    { unfold of_nat. change 20%Q with (inject_Z 20).
      rewrite <- inject_Z_mult, <- Zle_Qle. lia. }
    rewrite <- Hnat. set (q := (of_nat total_missing / of_nat total_cells)%Q) in *.
    split; intros H.
    - assert (q * of_nat total_cells <= (5 # 100) * of_nat total_cells)%Q.
      { apply Qmult_le_compat_r; [lra|]. by apply Qlt_le_weak. }
      lra.
    - assert (Hq5 : (q <= 5 # 100)%Q).
      { apply Qle_shift_div_r; [done|]. lra. }
      lra. }
  by rewrite H100, Hfrac.
Qed.

Lemma default_pass_criterion_witness :
  let st := calculate_statistics ex_builtins ex_env ex_table ["n"; "k"] ex_types in
  let total_missing := sum_list (map (spec_missing ex_table) (spec_columns ["n"; "k"])) in
  let total_cells := length ex_table * length (spec_columns ["n"; "k"]) in
  (validate_data ex_table st (config_of get_default_config) []).1.1 = true <->
  100 <= length ex_table /\ 20 * total_missing <= total_cells.
Proof.
  apply (default_pass_criterion ex_builtins ex_env ex_table ["n"; "k"] ex_types []);
    discriminate.
Defined.

(** ** Range issues *)

Lemma omap_length_le {A B} (f : A -> option B) (l : list A) :
  length (omap f l) <= length l.
Proof. induction l as [|x l IH]; cbn; [done|]. destruct (f x); cbn; lia. Qed.

Lemma range_issues_facts (B : pybuiltins) (data : list row) cfg field (i : issue) :
  i ∈ range_issues B data cfg field ->
  issue_field i = field /\ 1 <= issue_count i <= length data.
Proof.
  unfold range_issues.
  set (present := List.filter truthy (map (fun r => get r field) data)).
  set (values := omap (float B) present).
  assert (Hpresent : length present <= length data).
  { subst present. etrans; [apply filter_length_le|]. by rewrite length_map. }
  assert (Hvalues : length values <= length data).
  { subst values. etrans; [apply omap_length_le|done]. }
  assert (Hout : forall lo hi, length (out_of_range lo hi values) <= length data).
  { intros lo hi. unfold out_of_range. etrans; [apply filter_length_le|done]. }
  intros Hi. apply elem_of_app in Hi as [Hi|Hi].
  - destruct (Nat.ltb_spec 0 (length (List.filter (fun v => negb (is_numeric B v)) present)))
      as [Hpos|Hz]; [|by apply elem_of_nil in Hi].
    apply list_elem_of_singleton in Hi as ->. cbn. split; [done|]. split; [lia|].
    etrans; [apply filter_length_le|done].
  - destruct values as [|v0 vs] eqn:Hv; [by apply elem_of_nil in Hi|].
    rewrite <- Hv in *. clear Hv.
    repeat (apply elem_of_app in Hi as [Hi|Hi]).
    + destruct (_ || _); [|by apply elem_of_nil in Hi].
      destruct (out_of_range _ _ values) as [|b bs] eqn:Hb; [by apply elem_of_nil in Hi|].
      apply list_elem_of_singleton in Hi as ->. cbn [issue_field issue_count].
      split; [done|]. split; [cbn [length]; lia|].
      rewrite <- Hb. apply Hout.
    + destruct (contains "energy" _); [|by apply elem_of_nil in Hi].
      destruct (Nat.ltb_spec 0 (length (List.filter (fun v => flt v (Finite 0)) values)))
        as [Hpos|Hz]; [|by apply elem_of_nil in Hi].
      apply list_elem_of_singleton in Hi as ->. cbn. split; [done|]. split; [lia|].
      etrans; [apply filter_length_le|done].
    + destruct (_ || _); [|by apply elem_of_nil in Hi].
      destruct (out_of_range _ _ values) as [|b bs] eqn:Hb; [by apply elem_of_nil in Hi|].
      apply list_elem_of_singleton in Hi as ->. cbn [issue_field issue_count].
      split; [done|]. split; [cbn [length]; lia|].
      rewrite <- Hb. apply Hout.
Qed.

(** X19: every issue of the range check names a field of the table that is
    typed numeric or integer, and reports a count between 1 and the number
    of rows; columns of any other type are never checked. *)
Theorem range_issues_are_about_numeric_columns (B : pybuiltins) (data : list row)
    (fieldnames : list string) (column_types : gmap string column_type)
    (cfg : config) (i : issue) :
  i ∈ validate_numeric_ranges B data fieldnames column_types cfg ->
  issue_field i ∈ fieldnames /\
  (lookup_type column_types (issue_field i) = Some numeric \/
   lookup_type column_types (issue_field i) = Some integer) /\
  1 <= issue_count i <= length data.
Proof.
  unfold validate_numeric_ranges. rewrite list_elem_of_In, in_flat_map.
  intros (field & Hf & Hi). apply list_elem_of_In in Hf.
  destruct (is_numeric_type (lookup_type column_types field)) eqn:Ht;
    [|by apply list_elem_of_In, elem_of_nil in Hi].
  apply list_elem_of_In, range_issues_facts in Hi as [<- Hc].
  split; [done|]. split; [|exact Hc].
  destruct (lookup_type column_types (issue_field i)) as [[]|]; try done; auto.
Qed.

Lemma range_issues_are_about_numeric_columns_witness :
  InvalidNumeric "n" 1
    ∈ validate_numeric_ranges ex_builtins ex_mistyped ["n"]
        {[ "n" := ColumnType numeric 1 3 ]} ex_config /\
  (issue_field (InvalidNumeric "n" 1) ∈ ["n"] /\
   (lookup_type {[ "n" := ColumnType numeric 1 3 ]} (issue_field (InvalidNumeric "n" 1))
      = Some numeric \/
    lookup_type {[ "n" := ColumnType numeric 1 3 ]} (issue_field (InvalidNumeric "n" 1))
      = Some integer) /\
   1 <= issue_count (InvalidNumeric "n" 1) <= length ex_mistyped).
Proof.
  assert (H : InvalidNumeric "n" 1
                ∈ validate_numeric_ranges ex_builtins ex_mistyped ["n"]
                    {[ "n" := ColumnType numeric 1 3 ]} ex_config).
  { vm_compute. by left. }
  split; [exact H|].
  exact (range_issues_are_about_numeric_columns ex_builtins ex_mistyped ["n"]
           {[ "n" := ColumnType numeric 1 3 ]} ex_config _ H).
Defined.

(** ** Reading the rows *)

Lemma read_rows_unchunked (chunk_size : option nat) (rows : list csv_row) :
  chunk_size = None \/ chunk_size = Some 0 ->
  forall data warnings,
    read_rows chunk_size rows data warnings
    = (data ++ List.filter keep_row rows, warnings).
Proof.
  intros Hc. induction rows as [|r rows IH]; intros data warnings; cbn [read_rows List.filter].
  - by rewrite app_nil_r.
  - replace (chunk_full chunk_size _) with false
      by (by destruct Hc as [->| ->]).
    rewrite IH. destruct (keep_row r); [by rewrite <- app_assoc|done].
Qed.

Lemma read_rows_chunked (n : nat) (rows : list csv_row) : 0 < n ->
  forall data warnings, length data < n ->
    read_rows (Some n) rows data warnings
    = (take n (data ++ List.filter keep_row rows),
       warnings ++ if (n <=? length (data ++ List.filter keep_row rows))%nat
                   then [ChunkedRead n] else []).
Proof.
  intros Hn. induction rows as [|r rows IH]; intros data warnings Hlen;
    cbn [read_rows List.filter].
  - rewrite (app_nil_r data), take_ge by lia.
    destruct (Nat.leb_spec n (length data)); [lia|]. by rewrite app_nil_r.
  - unfold chunk_full. replace (0 <? n)%nat with true by (symmetry; by apply Nat.ltb_lt).
    cbn [andb default]. destruct (keep_row r).
    + destruct (Nat.leb_spec n (length (data ++ [r]))) as [Hfull|Hroom].
      * rewrite length_app in Hfull. cbn in Hfull.
        replace (data ++ r :: List.filter keep_row rows)
          with ((data ++ [r]) ++ List.filter keep_row rows) by (by rewrite <- app_assoc).
        rewrite take_app_le by (rewrite length_app; cbn; lia).
        rewrite take_ge by (rewrite length_app; cbn; lia).
        replace (n <=? _)%nat with true; [done|].
        symmetry. apply Nat.leb_le. rewrite !length_app. cbn. lia.
      * rewrite IH by done. by rewrite <- app_assoc.
    + destruct (Nat.leb_spec n (length data)) as [Hfull|Hroom]; [lia|]. by apply IH.
Qed.

Lemma remove_dups_length_le (l : list string) : length (remove_dups l) <= length l.
Proof.
  induction l as [|x l IH]; cbn; [done|]. destruct (decide_rel elem_of x l); cbn; lia.
Qed.

Lemma remove_dups_length_NoDup (l : list string) :
  length (remove_dups l) = length l <-> NoDup l.
Proof.
  induction l as [|x l IH]; cbn.
  - split; [constructor|done].
  - pose proof (remove_dups_length_le l). destruct (decide_rel elem_of x l) as [Hin|Hnin].
    + split; [lia|]. intros [? _]%NoDup_cons. done.
    + cbn. rewrite NoDup_cons. split.
      * intros [= Hlen]. split; [done|]. by apply IH.
      * intros [_ Hnd]. f_equal. by apply IH.
Qed.

(** X20: when the file opens and has a header, [read_csv_data] returns the
    rows that hold at least one non-empty value (or more cells than the
    header has names), in file order, cut to the first [chunk_size] of them
    when a positive chunk size is given; it
    reports no error, warns of a chunked read exactly when at least
    [chunk_size] such rows exist (so also when nothing was cut), and warns
    of duplicate column names exactly when the header repeats a name. *)
Theorem read_csv_data_rows (e : pyenv) (filepath : string)
    (fieldnames : list string) (rows : list csv_row) (chunk_size : option nat) :
  pyenv_ok e -> fieldnames ≠ [] ->
  let kept := List.filter keep_row rows in
  let data := match chunk_size with
              | Some (S n) => take (S n) kept
              | _ => kept
              end in
  exists warnings,
    read_csv_data e filepath (Opened fieldnames rows) chunk_size
      = (Some data, Some fieldnames, [], warnings) /\
    Forall (fun r => keep_row r = true) data /\
    (forall n, ChunkedRead n ∈ warnings <->
               chunk_size = Some n /\ 0 < n /\ n <= length kept) /\
    (DuplicateColumnNames ∈ warnings <-> ~ NoDup fieldnames).
Proof.
  intros He Hf kept data.
  assert (Hkept : Forall (fun r => keep_row r = true) kept).
  { apply Forall_forall. intros r Hr. by apply list_elem_of_In, filter_In in Hr as [_ ?]. }
  assert (Hdata : Forall (fun r => keep_row r = true) data).
  { subst data. destruct chunk_size as [[|n]|]; try done.
    apply Forall_forall. intros r Hr. apply elem_of_take_elem in Hr.
    by apply (proj1 (Forall_forall _ _) Hkept). }
  assert (Hdup : length fieldnames ≠ length (pyset e fieldnames) <-> ~ NoDup fieldnames).
  { rewrite length_pyset by done. split.
    - intros Hne Hnd. apply Hne. symmetry. by apply remove_dups_length_NoDup.
    - intros Hnd Heq. apply Hnd. by apply remove_dups_length_NoDup. }
  unfold read_csv_data. destruct fieldnames as [|f fs]; [done|].
  set (w0 := if bool_decide _ then [DuplicateColumnNames] else []).
  assert (Hw0 : DuplicateColumnNames ∈ w0 <-> ~ NoDup (f :: fs)).
  { rewrite <- Hdup. subst w0. case_bool_decide; split; try done.
    - by intros _; left.
    - by intros ?%elem_of_nil. }
  assert (Hw0c : forall n, ChunkedRead n ∉ w0).
  { intros n. subst w0. case_bool_decide; [|apply not_elem_of_nil].
    by intros [=]%list_elem_of_singleton. }
  destruct chunk_size as [[|n]|].
  - rewrite read_rows_unchunked by auto. cbn [app]. exists w0. split_and!; try done.
    intros k. split; [by intros ?%Hw0c|]. intros ([= <-] & ? & _). lia.
  - rewrite read_rows_chunked by (cbn; lia). cbn [app]. eexists. split_and!; try done.
    + intros k. rewrite elem_of_app. fold kept. split.
      * intros [?%Hw0c|Hk]; [done|].
        destruct (Nat.leb_spec (S n) (length kept)); [|by apply elem_of_nil in Hk].
        apply list_elem_of_singleton in Hk as [= ->]. split_and!; [done|lia|done].
      * intros ([= <-] & _ & Hle). right.
        replace (S n <=? length kept)%nat with true by (symmetry; by apply Nat.leb_le).
        by left.
    + rewrite elem_of_app, Hw0. split; [|by left]. intros [?|Hk]; [done|].
      fold kept in Hk. destruct (S n <=? length kept)%nat;
        [by apply list_elem_of_singleton in Hk|by apply elem_of_nil in Hk].
  - rewrite read_rows_unchunked by auto. cbn [app]. exists w0. split_and!; try done.
    intros k. split; [by intros ?%Hw0c|]. by intros ([=] & _).
Qed.

Lemma read_csv_data_rows_witness :
  let kept := List.filter keep_row ex_file_rows in
  let data := take 2 kept in
  exists warnings,
    read_csv_data ex_env "in.csv" (Opened ["a"; "a"] ex_file_rows) (Some 2)
      = (Some data, Some ["a"; "a"], [], warnings) /\
    Forall (fun r => keep_row r = true) data /\
    (forall n, ChunkedRead n ∈ warnings <->
               Some 2 = Some n /\ 0 < n /\ n <= length kept) /\
    (DuplicateColumnNames ∈ warnings <-> ~ NoDup ["a"; "a"]).
Proof.
  apply (read_csv_data_rows ex_env "in.csv" ["a"; "a"] ex_file_rows (Some 2)).
  - exact ex_env_ok.
  - discriminate.
Defined.

(** ** The sections of the report *)

Lemma filter_three_way {A} (P Q : A -> bool) (l : list A) :
  (forall x, P x = true -> Q x = true -> False) ->
  List.filter P l ++ List.filter Q l
    ++ List.filter (fun x => negb (P x) && negb (Q x)) l ≡ₚ l.
Proof.
  intros Hdisj. induction l as [|x l IH]; [done|]. cbn [List.filter].
  destruct (P x) eqn:HP, (Q x) eqn:HQ; cbn [negb andb app].
  - by destruct (Hdisj x).
  - by rewrite IH.
  - rewrite <- Permutation_middle. by rewrite IH.
  - rewrite app_assoc, <- Permutation_middle, <- app_assoc. by rewrite IH.
Qed.

Lemma filter_ext_elem {A} (f g : A -> bool) (l : list A) :
  (forall x, x ∈ l -> f x = g x) -> List.filter f l = List.filter g l.
Proof.
  intros H. apply filter_ext_in. intros x Hx. by apply H, list_elem_of_In.
Qed.

Lemma NoDup_fst_unique {V} (l : list (string * V)) (k : string) (v1 v2 : V) :
  NoDup l.*1 -> (k, v1) ∈ l -> (k, v2) ∈ l -> v1 = v2.
Proof.
  induction l as [|[k' v'] l IH]; cbn; intros Hnd H1 H2; [by apply elem_of_nil in H1|].
  apply NoDup_cons in Hnd as [Hk Hnd].
  assert (Hkey : forall v, (k', v) ∈ l -> False).
  { intros v Hv. apply Hk, list_elem_of_fmap. by exists (k', v). }
  apply elem_of_cons in H1 as [E1|H1]; apply elem_of_cons in H2 as [E2|H2];
    simplify_eq; try done;
    try (by destruct (Hkey _ H1)); try (by destruct (Hkey _ H2)).
  by apply IH.
Qed.

Lemma elem_of_filtered_keys {V} (P : V -> bool) (l : list (string * V)) (k : string) (v : V) :
  NoDup l.*1 -> (k, v) ∈ l ->
  k ∈ map fst (List.filter (fun ci => P ci.2) l) <-> P v = true.
Proof.
  intros Hnd Hin. rewrite list_elem_of_In, in_map_iff. split.
  - intros ([k' v'] & Hk & Hf). cbn in Hk. subst k'.
    apply filter_In in Hf as [Hin' HP]. apply list_elem_of_In in Hin'.
    assert (v' = v) as ->; [|done].
    by apply (NoDup_fst_unique l k).
  - intros HP. exists (k, v). split; [done|]. apply filter_In.
    by rewrite <- list_elem_of_In.
Qed.

(** X21: the report drops nothing and repeats nothing: every profiled
    column is listed under exactly one of the numeric, categorical and
    other headings, and every validation message under exactly one of the
    three severities. *)
Theorem report_sections_partition (st : stats) (validation_messages : list (level * text)) :
  numeric_cols st ++ categorical_cols st ++ other_cols st
    ≡ₚ map fst (column_items st) /\
  NoDup (numeric_cols st ++ categorical_cols st ++ other_cols st) /\
  messages_of error validation_messages ++ messages_of warning validation_messages
    ++ messages_of info validation_messages
    ≡ₚ map snd validation_messages.
Proof.
  assert (Hnd : NoDup (column_items st).*1) by apply NoDup_fst_map_to_list.
  assert (Hother : other_cols st
            = map fst (List.filter
                         (fun ci => negb (entry_is_numeric ci.2)
                                    && negb (entry_is_categorical ci.2))
                         (column_items st))).
  { unfold other_cols. f_equal. apply filter_ext_elem. intros [k v] Hin. cbn [fst snd].
    pose proof (elem_of_filtered_keys entry_is_numeric _ k v Hnd Hin) as H1.
    pose proof (elem_of_filtered_keys entry_is_categorical _ k v Hnd Hin) as H2.
    fold (numeric_cols st) in H1. fold (categorical_cols st) in H2.
    destruct (entry_is_numeric v) eqn:E1, (entry_is_categorical v) eqn:E2; cbn;
      repeat case_bool_decide; try done; naive_solver. }
  assert (Hperm : numeric_cols st ++ categorical_cols st ++ other_cols st
                  ≡ₚ map fst (column_items st)).
  { rewrite Hother. unfold numeric_cols, categorical_cols.
    rewrite <- !List.map_app. apply Permutation_map.
    apply (filter_three_way (fun ci => entry_is_numeric ci.2)
                            (fun ci => entry_is_categorical ci.2)).
    intros [k v]. unfold entry_is_numeric, entry_is_categorical. cbn [snd].
    rewrite !bool_decide_eq_true. intros [-> | ->] Hc; set_solver. }
  split_and!.
  - exact Hperm.
  - by rewrite Hperm.
  - unfold messages_of. rewrite <- !List.map_app. apply Permutation_map.
    induction validation_messages as [|[[] t] ms IH]; [done| | |];
      cbn [List.filter fst]; repeat case_bool_decide; try done; cbn [app].
    + rewrite app_assoc, <- Permutation_middle, <- app_assoc. by rewrite IH.
    + rewrite <- Permutation_middle. by rewrite IH.
    + by rewrite IH.
Qed.
